(** * The schema-comparison action: [packages/action/src/run.ts]

    A shallow embedding of the [run] pipeline of the GraphQL Inspector
    CI action.  [run] is an async function without a result: what it does is
    what it asks of its collaborators (the CI platform's logging and output
    primitives, the file loader, the module loader, the diff engine), in
    which order, and whether it returns or rejects.  The embedding therefore
    computes, for a given outside world, the ordered trace of these requests
    and the way the function ends. *)

From Stdlib Require Import String Ascii List Bool ZArith Lia.
From Stdlib Require Import DecimalNat DecimalString.
Import ListNotations.
Open Scope list_scope.
Open Scope string_scope.

Set Implicit Arguments.

(** ** JavaScript values used by [run] *)

Module Js.

(** The double quote, for template strings that contain one. *)
Definition dquote : string := String (ascii_of_nat 34) EmptyString.

(** Truthiness of a string: only the empty string is falsy. *)
Definition truthy (s : string) : bool :=
  match s with
  | EmptyString => false
  | String _ _ => true
  end.

(** [s || d] on strings. *)
Definition orElse (s d : string) : string :=
  if truthy s then s else d.

(** Truthiness of a possibly undefined string ([undefined] is [None]). *)
Definition defined (o : option string) : option string :=
  match o with
  | Some s => if truthy s then Some s else None
  | None => None
  end.

(** A possibly undefined string inside a template string. *)
Definition show (o : option string) : string :=
  match o with
  | Some s => s
  | None => "undefined"
  end.

(** [String(n)] for an array length. *)
Definition ofNat (n : nat) : string :=
  NilZero.string_of_uint (Nat.to_uint n).

(** An integer inside a template string. *)
Definition ofZ (z : Z) : string :=
  NilZero.string_of_int (Z.to_int z).

(** [String.prototype.toLowerCase] on the ASCII letters; the other bytes
    are kept. *)
Definition lowerAscii (c : ascii) : ascii :=
  let n := nat_of_ascii c in
  if (65 <=? n)%nat && (n <=? 90)%nat then ascii_of_nat (n + 32) else c.

Fixpoint toLowerCase (s : string) : string :=
  match s with
  | EmptyString => EmptyString
  | String c rest => String (lowerAscii c) (toLowerCase rest)
  end.

(** [s.split(sep)] for a one-character separator: every occurrence of the
    separator cuts, and the result always has at least one segment. *)
Fixpoint split (sep : ascii) (s : string) : list string :=
  match s with
  | EmptyString => [EmptyString]
  | String c rest =>
      if Ascii.eqb c sep then EmptyString :: split sep rest
      else match split sep rest with
           | seg :: segs => String c seg :: segs
           | [] => [String c EmptyString]
           end
  end.

End Js.

(** ** Effects: a trace of requests, early return and rejection *)

Definition Exn := string.

(** How a block of [run] ends: it falls through with a value, it executes
    [return] (the promise of [run] resolves), or an exception escapes (the
    promise rejects). *)
Inductive Res (A : Type) : Type :=
| Val (a : A)
| Return
| Throw (e : Exn).

Arguments Val {A} a.
Arguments Return {A}.
Arguments Throw {A} e.

Section Monad.

Variable Event : Type.

Definition M (A : Type) : Type := (list Event * Res A)%type.

Definition ret {A} (a : A) : M A := ([], Val a).

Definition bind {A B} (m : M A) (k : A -> M B) : M B :=
  match snd m with
  | Val a => ((fst m ++ fst (k a))%list, snd (k a))
  | Return => (fst m, Return)
  | Throw e => (fst m, Throw e)
  end.

Definition emit (e : Event) : M unit := ([e], Val tt).

Definition exit {A} : M A := ([], Return).

Definition throw {A} (e : Exn) : M A := ([], Throw e).

(** The answer of a collaborator that may throw. *)
Definition answer {A} (r : Exn + A) : M A :=
  match r with
  | inl e => throw e
  | inr a => ret a
  end.

(** Every event of a block satisfies [P]. *)
Definition Emits (P : Event -> Prop) A (m : M A) : Prop := Forall P (fst m).

(** Every event of a block that falls through satisfies [P]. *)
Definition EmitsIfVal (P : Event -> Prop) A (m : M A) : Prop :=
  (exists a, snd m = Val a) -> Forall P (fst m).

End Monad.

Arguments ret {Event A} a.
Arguments exit {Event A}.
Arguments throw {Event A} e.
Arguments answer {Event A} r.

Notation "x <- m ;; k" := (bind m (fun x => k))
  (at level 61, m at next level, right associativity).
Notation "m ;;; k" := (bind m (fun _ => k))
  (at level 61, right associativity).

(** ** Data model *)

(** Modelled from the spec: the enum [CheckConclusion] of
    [helpers/types.js], which is not among the sources; the spec gives it the
    two values [Success] and [Failure]. *)
Inductive CheckConclusion : Type := Success | Failure.

Definition CheckConclusion_eqb (a b : CheckConclusion) : bool :=
  match a, b with
  | Success, Success | Failure, Failure => true
  | _, _ => false
  end.

Record Label : Type := { name : string }.

Record Base : Type := { base_ref : string }.

(** What [getAssociatedPullRequest] answers; [base] and [labels] are read
    with optional chaining. *)
Record PullRequest : Type := {
  state : string;
  number : Z;
  base : option Base;
  labels : option (list Label)
}.

(** The argument of [loadFile]. *)
Record LoadArgs : Type := {
  load_ref : option string;
  load_path : option string;
  load_workspace : option string
}.

(** [new Source(body, name)]. *)
Record Source : Type := { source_body : string; source_name : string }.

Record Sources : Type := { sources_old : Source; sources_new : Source }.

Section Action.

(** The objects [run] only passes along: their types are left open. *)
Variables Rule Schema Hook Change Json Octokit : Type.

Record Schemas : Type := { schemas_old : Schema; schemas_new : Schema }.

(** The usage-check configuration, [{ checkUsage }]. *)
Record Config : Type := { checkUsage : Hook }.

(** The argument and the result of the diff engine. *)
Record DiffArgs : Type := {
  diff_path : string;
  diff_schemas : Schemas;
  diff_sources : Sources;
  diff_rules : list Rule;
  diff_config : option Config
}.

Record DiffResult : Type := {
  conclusion : CheckConclusion;
  changes : option (list Change)
}.

(** What [run] asks of the outside, in the order it asks. *)
Inductive Event : Type :=
| CoreInfo (message : string)
| CoreError (message : string)
| CoreSetFailed (message : string)
| CoreSetOutput (key value : string)
| RequireCall (path : string)
| LoadFileCall (args : LoadArgs)
| DiffCall (args : DiffArgs).

(** The outside world of one run: the process environment and the
    collaborators imported by [run.ts].  Those that read an input, reach the
    network or the file system, load a module or parse text answer with a
    value or an exception; the others are taken as total.  [getInput] takes
    the [required] option as its second argument; [require] answers [None]
    for a module whose export is falsy; [conclusionText] is the text of a
    conclusion inside a template string. *)
Record World : Type := {
  GITHUB_SHA : option string;
  GITHUB_WORKSPACE : option string;
  getCurrentCommitSha : string;
  getInput : string -> bool -> Exn + string;
  castToBoolean : string -> option bool -> bool;
  getInputAsArray : string -> option (list string);
  getOctokit : string -> Octokit;
  context_repo : string * string;
  getAssociatedPullRequest : Octokit -> string -> Exn + option PullRequest;
  fileLoader : Octokit -> string -> string -> LoadArgs -> Exn + string;
  resolveRule : string -> option Rule;
  require : string -> Exn + option Hook;
  extname : string -> string;
  JSON_parse : string -> Exn + Json;
  buildClientSchema : Json -> Exn + Schema;
  printSchema : Schema -> string;
  produceSchema : Source -> Exn + Schema;
  diff : DiffArgs -> Exn + DiffResult;
  conclusionText : CheckConclusion -> string;
  createSummary : list Change -> nat -> bool -> string
}.

Variable w : World.

Definition core_info (message : string) : M Event unit :=
  emit (CoreInfo message).
Definition core_error (message : string) : M Event unit :=
  emit (CoreError message).
Definition core_setFailed (message : string) : M Event unit :=
  emit (CoreSetFailed message).
Definition core_setOutput (key value : string) : M Event unit :=
  emit (CoreSetOutput key value).

(** *** Lines 15-60: environment, inputs, pull request, pointer guard *)

(** The local variables that are live after line 60. *)
Record Settings : Type := {
  ref : option string;
  commitSha : string;
  workspace : string;
  useMerge : bool;
  failOnBreaking : bool;
  approveLabel : string;
  rulesList : list string;
  onUsage : string;
  octokit : Octokit;
  owner : string;
  repo : string;
  pullRequest : option PullRequest;
  schemaPointer : string
}.

(** Lines 15-55: everything that is read before the pointer is checked. *)
Definition readSettings : M Event Settings :=
  core_info "GraphQL Inspector started" ;;;
  let ref := GITHUB_SHA w in
  let commitSha := getCurrentCommitSha w in
  core_info ("Ref: " ++ Js.show ref) ;;;
  core_info ("Commit SHA: " ++ commitSha) ;;;
  token <- answer (getInput w "github-token" true) ;;
  jobInput <- answer (getInput w "name" false) ;;
  let jobName := Js.orElse jobInput "GraphQL Inspector" in
  match Js.defined (GITHUB_WORKSPACE w) with
  | None =>
      core_setFailed
        "Failed to resolve workspace directory. GITHUB_WORKSPACE is missing" ;;;
      exit
  | Some workspace =>
      mergeInput <- answer (getInput w "experimental_merge" false) ;;
      let useMerge := castToBoolean w mergeInput (Some true) in
      failInput <- answer (getInput w "fail-on-breaking" false) ;;
      let failOnBreaking := castToBoolean w failInput None in
      labelInput <- answer (getInput w "approve-label" false) ;;
      let approveLabel := Js.orElse labelInput "approved-breaking-change" in
      let rulesList :=
        match getInputAsArray w "rules" with
        | Some l => l
        | None => []
        end in
      onUsage <- answer (getInput w "getUsage" false) ;;
      let octokit := getOctokit w token in
      let (owner, repo) := context_repo w in
      pullRequest <- answer (getAssociatedPullRequest w octokit commitSha) ;;
      core_info ("Creating a job named " ++ Js.dquote ++ jobName ++ Js.dquote) ;;;
      schemaPointer <- answer (getInput w "schema" true) ;;
      ret {| ref := ref; commitSha := commitSha; workspace := workspace;
             useMerge := useMerge; failOnBreaking := failOnBreaking;
             approveLabel := approveLabel; rulesList := rulesList;
             onUsage := onUsage; octokit := octokit; owner := owner;
             repo := repo; pullRequest := pullRequest;
             schemaPointer := schemaPointer |}
  end.

(** Lines 57-60: [if (!schemaPointer)]. *)
Definition requirePointer (s : Settings) : M Event Settings :=
  if Js.truthy (schemaPointer s) then ret s
  else
    core_error "No `schema` variable" ;;;
    core_setFailed "Failed to find `schema` variable" ;;;
    exit.

Definition setup : M Event Settings :=
  s <- readSettings ;;
  requirePointer s.

(** *** Lines 62-77: rule resolution and its gate *)

(** The callback of [rulesList.map], run over the list in order. *)
Fixpoint mapResolve (refs : list string) : M Event (list (option Rule)) :=
  match refs with
  | [] => ret []
  | r :: rest =>
      let rule := resolveRule w r in
      match rule with
      | None =>
          core_error
            ("Rule " ++ r ++ " is invalid. Did you specify the correct path?")
      | Some _ => ret tt
      end ;;;
      rules <- mapResolve rest ;;
      ret (rule :: rules)
  end.

(** [.filter(Boolean)]. *)
Fixpoint filterBoolean (l : list (option Rule)) : list Rule :=
  match l with
  | [] => []
  | Some rule :: rest => rule :: filterBoolean rest
  | None :: rest => filterBoolean rest
  end.

Definition resolveRules (s : Settings) : M Event (list Rule) :=
  mapped <- mapResolve (rulesList s) ;;
  let rules := filterBoolean mapped in
  if negb (Nat.eqb (length rules) (length (rulesList s))) then
    core_setFailed "Some rules weren't recognised" ;;;
    exit
  else ret rules.

(** *** Lines 79-89: the optional usage-check hook *)

Definition loadUsage (s : Settings) : M Event (option Config) :=
  if Js.truthy (onUsage s) then
    emit (RequireCall (onUsage s)) ;;;
    loaded <- answer (require w (onUsage s)) ;;
    match loaded with
    | Some hook => ret (Some {| checkUsage := hook |})
    | None => ret None
    end
  else ret None.

(** *** Lines 91-104: the pointer and the pull-request merge mode *)

(** [schemaRef] and [schemaPath], and the values of [ref] and [workspace]
    once line 104 is passed. *)
Record Targets : Type := {
  schemaRef : string;
  schemaPath : option string;
  headRef : option string;
  headWorkspace : option string
}.

(** [let [schemaRef, schemaPath] = schemaPointer.split(':')]: the first two
    segments; the second one is undefined when there is no colon. *)
Definition splitPointer (pointer : string) : string * option string :=
  let segments := Js.split ":" pointer in
  (hd EmptyString segments, nth_error segments 1).

Definition resolveTargets (s : Settings) : M Event Targets :=
  let (schemaRef, schemaPath) := splitPointer (schemaPointer s) in
  let unchanged :=
    {| schemaRef := schemaRef; schemaPath := schemaPath;
       headRef := ref s; headWorkspace := Some (workspace s) |} in
  match useMerge s, pullRequest s with
  | true, Some pr =>
      if String.eqb (state pr) "open" then
        let ref := "refs/pull/" ++ Js.ofZ (number pr) ++ "/merge" in
        core_info ("EXPERIMENTAL - Using Pull Request " ++ ref) ;;;
        match Js.defined (option_map base_ref (base pr)) with
        | Some baseRef =>
            core_info
              ("EXPERIMENTAL - Using " ++ baseRef ++ " as base schema ref") ;;;
            ret {| schemaRef := baseRef; schemaPath := schemaPath;
                   headRef := Some ref; headWorkspace := None |}
        | None =>
            ret {| schemaRef := schemaRef; schemaPath := schemaPath;
                   headRef := Some ref; headWorkspace := None |}
        end
      else ret unchanged
  | _, _ => ret unchanged
  end.

(** *** Lines 106-118: the two file loads *)

Definition oldLoad (t : Targets) : LoadArgs :=
  {| load_ref := Some (schemaRef t); load_path := schemaPath t;
     load_workspace := None |}.

Definition newLoad (t : Targets) : LoadArgs :=
  {| load_ref := headRef t; load_path := schemaPath t;
     load_workspace := headWorkspace t |}.

(** Both loads are started before either is awaited, and [Promise.all]
    rejects when one of them does; when both do, the exception of the base
    side is the one reported here. *)
Definition loadSources (s : Settings) (t : Targets) : M Event (string * string) :=
  let loadFile := fileLoader w (octokit s) (owner s) (repo s) in
  emit (LoadFileCall (oldLoad t)) ;;;
  emit (LoadFileCall (newLoad t)) ;;;
  oldFile <- answer (loadFile (oldLoad t)) ;;
  newFile <- answer (loadFile (newLoad t)) ;;
  core_info "Got both sources" ;;;
  ret (oldFile, newFile).

(** *** Lines 120-147: the two schemas and their sources *)

Record Built : Type := {
  built_path : string;
  built_schemas : Schemas;
  built_sources : Sources
}.

Definition isIntrospection (path : string) : bool :=
  String.eqb (extname w (Js.toLowerCase path)) ".json".

Definition buildSchemas (t : Targets) (oldFile newFile : string) : M Event Built :=
  match schemaPath t with
  | None =>
      throw "TypeError: Cannot read properties of undefined (reading 'toLowerCase')"
  | Some path =>
      built <-
        (if isIntrospection path then
           oldJson <- answer (JSON_parse w oldFile) ;;
           oldSchema <- answer (buildClientSchema w oldJson) ;;
           newJson <- answer (JSON_parse w newFile) ;;
           newSchema <- answer (buildClientSchema w newJson) ;;
           ret {| built_path := path;
                  built_schemas :=
                    {| schemas_old := oldSchema; schemas_new := newSchema |};
                  built_sources :=
                    {| sources_old :=
                         {| source_body := printSchema w oldSchema;
                            source_name := schemaRef t ++ ":" ++ path |};
                       sources_new :=
                         {| source_body := printSchema w newSchema;
                            source_name := path |} |} |}
         else
           let sources :=
             {| sources_old :=
                  {| source_body := oldFile;
                     source_name := schemaRef t ++ ":" ++ path |};
                sources_new :=
                  {| source_body := newFile; source_name := path |} |} in
           oldSchema <- answer (produceSchema w (sources_old sources)) ;;
           newSchema <- answer (produceSchema w (sources_new sources)) ;;
           ret {| built_path := path;
                  built_schemas :=
                    {| schemas_old := oldSchema; schemas_new := newSchema |};
                  built_sources := sources |}) ;;
      core_info "Built both schemas" ;;;
      ret built
  end.

(** *** Lines 149-157: the diff engine *)

Definition diffArgs (b : Built) (rules : list Rule) (config : option Config)
  : DiffArgs :=
  {| diff_path := built_path b; diff_schemas := built_schemas b;
     diff_sources := built_sources b; diff_rules := rules;
     diff_config := config |}.

Definition invokeDiff (b : Built) (rules : list Rule) (config : option Config)
  : M Event DiffResult :=
  core_info "Start comparing schemas" ;;;
  emit (DiffCall (diffArgs b rules config)) ;;;
  answer (diff w (diffArgs b rules config)).

(** *** Lines 159-187: the count, the override and the verdict *)

(** [action.changes || []]. *)
Definition changesOf (action : DiffResult) : list Change :=
  match changes action with
  | Some l => l
  | None => []
  end.

(** [pullRequest?.labels?.some(label => label.name === approveLabel)];
    the undefined of a missing pull request or label list is falsy. *)
Definition hasApprovedBreakingChangeLabel (s : Settings) : bool :=
  match pullRequest s with
  | Some pr =>
      match labels pr with
      | Some ls => existsb (fun label => String.eqb (name label) (approveLabel s)) ls
      | None => false
      end
  | None => false
  end.

(** Lines 169-176: the conclusion after the override. *)
Definition overrideConclusion (s : Settings) (raw : CheckConclusion)
  : M Event CheckConclusion :=
  if (negb (failOnBreaking s) || hasApprovedBreakingChangeLabel s)
     && CheckConclusion_eqb raw Failure
  then
    core_info "FailOnBreaking disabled. Forcing SUCCESS" ;;;
    ret Success
  else ret raw.

Definition report (s : Settings) (action : DiffResult) : M Event unit :=
  let changes := changesOf action in
  (* [changes.length || 0] is [changes.length]: the length is a number *)
  core_setOutput "changes" (Js.ofNat (length changes)) ;;;
  core_info ("Changes: " ++ Js.ofNat (length changes)) ;;;
  final <- overrideConclusion s (conclusion action) ;;
  let summary := createSummary w changes 100 false in
  core_info ("Conclusion: " ++ conclusionText w final) ;;;
  if CheckConclusion_eqb final Failure then
    core_error summary ;;;
    core_setFailed "Something is wrong with your schema" ;;;
    exit
  else core_info summary.

(** *** The pipeline *)

(** Everything a run does once its rules are accepted, up to the answer of
    the diff engine. *)
Definition compare (s : Settings) (rules : list Rule) : M Event DiffResult :=
  config <- loadUsage s ;;
  t <- resolveTargets s ;;
  files <- loadSources s t ;;
  b <- buildSchemas t (fst files) (snd files) ;;
  invokeDiff b rules config.

(** Lines 15-157. *)
Definition analyse : M Event (Settings * DiffResult) :=
  s <- setup ;;
  rules <- resolveRules s ;;
  action <- compare s rules ;;
  ret (s, action).

Definition run : M Event unit :=
  sa <- analyse ;;
  report (fst sa) (snd sa).

(** *** Reading a trace *)

(** The logging primitives: messages, and the failure mark. *)
Definition isLog (e : Event) : bool :=
  match e with
  | CoreInfo _ | CoreError _ | CoreSetFailed _ => true
  | _ => false
  end.

(** Neither a failure mark nor an output value. *)
Definition isQuiet (e : Event) : bool :=
  match e with
  | CoreSetFailed _ | CoreSetOutput _ _ => false
  | _ => true
  end.

(** The output values set by a run, in order. *)
Fixpoint outputsOf (tr : list Event) : list (string * string) :=
  match tr with
  | [] => []
  | CoreSetOutput key value :: rest => (key, value) :: outputsOf rest
  | _ :: rest => outputsOf rest
  end.

(** The pull request of the run carries the approval label. *)
Definition carriesApprovalLabel (s : Settings) : Prop :=
  exists pr ls label,
    pullRequest s = Some pr /\ labels pr = Some ls /\
    In label ls /\ name label = approveLabel s.

(** The message logged for a rule reference that does not resolve. *)
Definition invalidRule (r : string) : Event :=
  CoreError ("Rule " ++ r ++ " is invalid. Did you specify the correct path?").

Definition unresolved (r : string) : bool :=
  match resolveRule w r with
  | Some _ => false
  | None => true
  end.

End Action.

(** ** The pointer as the specification words it *)

Module Spec.

(** The text before the first colon; the whole text when there is none. *)
Fixpoint textBeforeFirstColon (pointer : string) : string :=
  match pointer with
  | EmptyString => EmptyString
  | String c rest =>
      if Ascii.eqb c ":" then EmptyString
      else String c (textBeforeFirstColon rest)
  end.

(** The entire remainder after the first colon; nothing when there is no
    colon. *)
Fixpoint remainderAfterFirstColon (pointer : string) : option string :=
  match pointer with
  | EmptyString => None
  | String c rest =>
      if Ascii.eqb c ":" then Some rest
      else remainderAfterFirstColon rest
  end.

Fixpoint hasColon (text : string) : bool :=
  match text with
  | EmptyString => false
  | String c rest => Ascii.eqb c ":" || hasColon rest
  end.

End Spec.

Arguments core_info {Rule Schema Hook} message.
Arguments core_error {Rule Schema Hook} message.
Arguments core_setFailed {Rule Schema Hook} message.
Arguments core_setOutput {Rule Schema Hook} key value.
Arguments requirePointer {Rule Schema Hook} [Octokit] s.
Arguments resolveTargets {Rule Schema Hook} [Octokit] s.
Arguments overrideConclusion {Rule Schema Hook} [Octokit] s raw.
Arguments invalidRule {Rule Schema Hook} r.
Arguments CoreInfo {Rule Schema Hook} message.
Arguments CoreError {Rule Schema Hook} message.
Arguments CoreSetFailed {Rule Schema Hook} message.
Arguments CoreSetOutput {Rule Schema Hook} key value.
Arguments RequireCall {Rule Schema Hook} path.
Arguments LoadFileCall {Rule Schema Hook} args.

(** ** A concrete world, after the mocks of the action's test suite *)

Module Fixture.

(** The knobs the scenarios turn. *)
Record Scenario : Type := {
  schemaInput : string;
  rulesInput : list string;
  usageInput : string;
  mergeInput : string;
  failInput : string;
  enforceRequired : bool;
  associated : option PullRequest;
  engine : DiffResult string
}.

Definition inputs (sc : Scenario) (key : string) : string :=
  if String.eqb key "github-token" then "MOCK_GITHUB_TOKEN"
  else if String.eqb key "schema" then schemaInput sc
  else if String.eqb key "getUsage" then usageInput sc
  else if String.eqb key "experimental_merge" then mergeInput sc
  else if String.eqb key "fail-on-breaking" then failInput sc
  else EmptyString.

(** [core.getInput]: on the platform a required input that is not supplied
    throws; the mock of the test suite ignores the option. *)
Definition mockGetInput (sc : Scenario) (key : string) (required : bool)
  : Exn + string :=
  if enforceRequired sc && required && negb (Js.truthy (inputs sc key))
  then inl ("Input required and not supplied: " ++ key)
  else inr (inputs sc key).

Definition mockCastToBoolean (value : string) (defaultValue : option bool)
  : bool :=
  if String.eqb value "true" then true
  else if String.eqb value "false" then false
  else match defaultValue with
       | Some d => d
       | None => true
       end.

Definition mockResolveRule (r : string) : option string :=
  if String.eqb r "suppressRemovalOfDeprecatedField" then Some r
  else if String.eqb r "example/rules/custom-rule.js" then Some r
  else None.

(** One module that exports a hook, one that exports nothing, and no other
    module on disk. *)
Definition mockRequire (path : string) : Exn + option unit :=
  if String.eqb path "./usage.js" then inr (Some tt)
  else if String.eqb path "./empty.js" then inr None
  else inl ("Cannot find module '" ++ path ++ "'").

Definition oldText : string := "type Query { oldQuery: Int newQuery: Int! }".
Definition newText : string := "type Query { newQuery: Int! }".

(** The base side is the load whose ref is the base branch. *)
Definition mockFileLoader (_ _ _ : string) (args : LoadArgs) : Exn + string :=
  match load_ref args with
  | Some r => if String.eqb r "master" then inr oldText else inr newText
  | None => inr newText
  end.

(** Enough of [path.extname] for the file names used here: the text from
    the last dot on. *)
Fixpoint mockExtname (path : string) : string :=
  match path with
  | EmptyString => EmptyString
  | String c rest =>
      match mockExtname rest with
      | EmptyString =>
          if Ascii.eqb c "." then String c rest else EmptyString
      | ext => ext
      end
  end.

Definition mockConclusionText (c : CheckConclusion) : string :=
  match c with
  | Success => "success"
  | Failure => "failure"
  end.

Definition mockCreateSummary (changes : list string) (_ : nat) (_ : bool)
  : string :=
  "Found " ++ Js.ofNat (length changes) ++ " changes".

Definition world (sc : Scenario)
  : World string string unit string string string :=
  {| GITHUB_SHA := Some "0123abc";
     GITHUB_WORKSPACE := Some "/workspace";
     getCurrentCommitSha := "0123abc";
     getInput := mockGetInput sc;
     castToBoolean := mockCastToBoolean;
     getInputAsArray := fun _ => Some (rulesInput sc);
     getOctokit := fun token => token;
     context_repo := ("some-owner", "graphql-inspector");
     getAssociatedPullRequest := fun _ _ => inr (associated sc);
     fileLoader := mockFileLoader;
     resolveRule := mockResolveRule;
     require := mockRequire;
     extname := mockExtname;
     JSON_parse := fun text => inr text;
     buildClientSchema := fun json => inr json;
     printSchema := fun schema => schema;
     produceSchema := fun source => inr (source_body source);
     diff := fun _ => inr (engine sc);
     conclusionText := mockConclusionText;
     createSummary := mockCreateSummary |}.

(** The settings a scenario leaves after line 60. *)
Definition settings (sc : Scenario) : Settings string :=
  {| ref := Some "0123abc"; commitSha := "0123abc"; workspace := "/workspace";
     useMerge := mockCastToBoolean (mergeInput sc) (Some true);
     failOnBreaking := mockCastToBoolean (failInput sc) None;
     approveLabel := "approved-breaking-change";
     rulesList := rulesInput sc; onUsage := usageInput sc;
     octokit := "MOCK_GITHUB_TOKEN"; owner := "some-owner";
     repo := "graphql-inspector"; pullRequest := associated sc;
     schemaPointer := schemaInput sc |}.

(** The pull request of the test suite: open, number 1, onto master. *)
Definition openPR : PullRequest :=
  {| state := "open"; number := 1;
     base := Some {| base_ref := "master" |}; labels := None |}.

(** An open pull request number 42 onto [develop], approved by label. *)
Definition approvedPR : PullRequest :=
  {| state := "open"; number := 42;
     base := Some {| base_ref := "develop" |};
     labels := Some [ {| name := "bug" |};
                      {| name := "approved-breaking-change" |} ] |}.

Definition closedPR : PullRequest :=
  {| state := "closed"; number := 7;
     base := Some {| base_ref := "develop" |}; labels := None |}.

Definition twoChanges : DiffResult string :=
  {| conclusion := Success;
     changes := Some ["Field oldQuery was removed"; "Type OldType was removed"] |}.

Definition breaking : DiffResult string :=
  {| conclusion := Failure;
     changes := Some ["Field oldQuery was removed"] |}.

Definition withoutChanges : DiffResult string :=
  {| conclusion := Success; changes := None |}.

(** The scenario of the test suite's first case. *)
Definition builtinRule : Scenario :=
  {| schemaInput := "master:schema.graphql";
     rulesInput := ["suppressRemovalOfDeprecatedField"];
     usageInput := EmptyString;
     mergeInput := EmptyString;
     failInput := EmptyString;
     enforceRequired := true;
     associated := Some openPR;
     engine := twoChanges |}.

(** The same run with another pointer, hook, pull request or engine answer. *)
Definition withSchema (pointer : string) (sc : Scenario) : Scenario :=
  {| schemaInput := pointer; rulesInput := rulesInput sc;
     usageInput := usageInput sc; mergeInput := mergeInput sc;
     failInput := failInput sc; enforceRequired := enforceRequired sc;
     associated := associated sc; engine := engine sc |}.

Definition withUsage (path : string) (sc : Scenario) : Scenario :=
  {| schemaInput := schemaInput sc; rulesInput := rulesInput sc;
     usageInput := path; mergeInput := mergeInput sc;
     failInput := failInput sc; enforceRequired := enforceRequired sc;
     associated := associated sc; engine := engine sc |}.

Definition withRules (rules : list string) (sc : Scenario) : Scenario :=
  {| schemaInput := schemaInput sc; rulesInput := rules;
     usageInput := usageInput sc; mergeInput := mergeInput sc;
     failInput := failInput sc; enforceRequired := enforceRequired sc;
     associated := associated sc; engine := engine sc |}.

Definition withPolicy (fail : string) (pr : option PullRequest)
           (answer : DiffResult string) (sc : Scenario) : Scenario :=
  {| schemaInput := schemaInput sc; rulesInput := rulesInput sc;
     usageInput := usageInput sc; mergeInput := mergeInput sc;
     failInput := fail; enforceRequired := enforceRequired sc;
     associated := pr; engine := answer |}.

Definition withMerge (merge : string) (sc : Scenario) : Scenario :=
  {| schemaInput := schemaInput sc; rulesInput := rulesInput sc;
     usageInput := usageInput sc; mergeInput := merge;
     failInput := failInput sc; enforceRequired := enforceRequired sc;
     associated := associated sc; engine := engine sc |}.

Definition withMockedInputs (sc : Scenario) : Scenario :=
  {| schemaInput := schemaInput sc; rulesInput := rulesInput sc;
     usageInput := usageInput sc; mergeInput := mergeInput sc;
     failInput := failInput sc; enforceRequired := false;
     associated := associated sc; engine := engine sc |}.

(** A breaking change, enforced. *)
Definition breakingEnforced : Scenario :=
  withPolicy "true" (Some openPR) breaking builtinRule.

(** A breaking change with [fail-on-breaking] switched off. *)
Definition breakingTolerated : Scenario :=
  withPolicy "false" (Some openPR) breaking builtinRule.

(** A breaking change, enforced, on a pull request that carries the label. *)
Definition breakingApproved : Scenario :=
  withPolicy "true" (Some approvedPR) breaking builtinRule.

(** One reference of the list is unknown. *)
Definition unknownRule : Scenario :=
  withRules ["suppressRemovalOfDeprecatedField"; "noSuchRule"] builtinRule.

(** Pointers without a path: no colon, and nothing after the colon. *)
Definition pathless : Scenario := withSchema "master" builtinRule.
Definition emptyPath : Scenario := withSchema "master:" builtinRule.

(** A pointer with two colons. *)
Definition twoColons : Scenario :=
  withSchema "master:dir:schema.graphql" builtinRule.

(** No pointer at all, read through the mocked [getInput]. *)
Definition emptyPointer : Scenario :=
  withMockedInputs (withSchema EmptyString builtinRule).

(** A hook path with no module behind it, and one whose module exports
    nothing. *)
Definition missingHook : Scenario := withUsage "./missing.js" builtinRule.
Definition emptyHook : Scenario := withUsage "./empty.js" builtinRule.

(** An engine answer without a change list. *)
Definition withoutList : Scenario :=
  withPolicy EmptyString (Some openPR) withoutChanges builtinRule.

(** A closed pull request, and merge mode switched off. *)
Definition closedRequest : Scenario :=
  withPolicy EmptyString (Some closedPR) twoChanges builtinRule.
Definition mergeOff : Scenario := withMerge "false" builtinRule.

(** The targets of an introspection file and of a definition file. *)
Definition jsonTargets : Targets :=
  {| schemaRef := "master"; schemaPath := Some "schema.JSON";
     headRef := Some "refs/pull/1/merge"; headWorkspace := None |}.

Definition sdlTargets : Targets :=
  {| schemaRef := "master"; schemaPath := Some "schema.graphql";
     headRef := Some "refs/pull/1/merge"; headWorkspace := None |}.

End Fixture.

(** ** Reading a whole run *)

Section Observers.

Context {Rule Schema Hook : Type}.

(** The calls that leave the action: a module load, a file load, the diff
    engine. *)
Definition isCall (e : Event Rule Schema Hook) : bool :=
  match e with
  | RequireCall _ | LoadFileCall _ | DiffCall _ => true
  | _ => false
  end.

Definition callsOf (tr : list (Event Rule Schema Hook))
  : list (Event Rule Schema Hook) :=
  filter isCall tr.

Definition isFailed (e : Event Rule Schema Hook) : bool :=
  match e with
  | CoreSetFailed _ => true
  | _ => false
  end.

Definition isOutput (e : Event Rule Schema Hook) : bool :=
  match e with
  | CoreSetOutput _ _ => true
  | _ => false
  end.

(** The four messages [run] passes to [core.setFailed] (lines 30, 59, 76
    and 184). *)
Definition failureMessages : list string :=
  [ "Failed to resolve workspace directory. GITHUB_WORKSPACE is missing";
    "Failed to find `schema` variable";
    "Some rules weren't recognised";
    "Something is wrong with your schema" ].

(** The discipline of [return core.setFailed(...)]: a block that returns has
    just set the failure mark, with one of the four messages, and had not set
    it before; a block that ends otherwise has not set it at all. *)
Definition Marked A (m : M (Event Rule Schema Hook) A) : Prop :=
  match snd m with
  | Return =>
      exists before message,
        fst m = (before ++ [CoreSetFailed message])%list /\
        In message failureMessages /\
        Forall (fun e => isFailed e = false) before
  | _ => Forall (fun e => isFailed e = false) (fst m)
  end.

End Observers.

(** ** More worlds: a missing workspace, failing collaborators *)

Module Variants.

Import Fixture.

(** The world of a scenario with another workspace variable, file loader,
    schema producer and diff engine. *)
Definition worldWith (sc : Scenario) (workspaceVar : option string)
           (loader : LoadArgs -> Exn + string)
           (producer : Source -> Exn + string)
           (differ : Exn + DiffResult string)
  : World string string unit string string string :=
  {| GITHUB_SHA := GITHUB_SHA (world sc);
     GITHUB_WORKSPACE := workspaceVar;
     getCurrentCommitSha := getCurrentCommitSha (world sc);
     getInput := getInput (world sc);
     castToBoolean := castToBoolean (world sc);
     getInputAsArray := getInputAsArray (world sc);
     getOctokit := getOctokit (world sc);
     context_repo := context_repo (world sc);
     getAssociatedPullRequest := getAssociatedPullRequest (world sc);
     fileLoader := fun _ _ _ => loader;
     resolveRule := resolveRule (world sc);
     require := require (world sc);
     extname := extname (world sc);
     JSON_parse := JSON_parse (world sc);
     buildClientSchema := buildClientSchema (world sc);
     printSchema := printSchema (world sc);
     produceSchema := producer;
     diff := fun _ => differ;
     conclusionText := conclusionText (world sc);
     createSummary := createSummary (world sc) |}.

Definition goodLoader : LoadArgs -> Exn + string :=
  mockFileLoader EmptyString EmptyString EmptyString.

Definition goodProducer (source : Source) : Exn + string :=
  inr (source_body source).


(** The schema text of the head side does not parse. *)
Definition headBroken (source : Source) : Exn + string :=
  if String.eqb (source_name source) "schema.graphql"
  then inl "Syntax Error: Unexpected Name"
  else inr (source_body source).

(** The workspace variable is not set, or set to the empty string. *)
Definition noWorkspace : World string string unit string string string :=
  worldWith builtinRule None goodLoader goodProducer (inr twoChanges).

Definition emptyWorkspace : World string string unit string string string :=
  worldWith builtinRule (Some EmptyString) goodLoader goodProducer
    (inr twoChanges).


Definition buildFailure : World string string unit string string string :=
  worldWith builtinRule (Some "/workspace") goodLoader headBroken
    (inr twoChanges).

Definition engineFailure : World string string unit string string string :=
  worldWith builtinRule (Some "/workspace") goodLoader goodProducer
    (inl "Cannot read properties of undefined").

(** A run with the usage hook of [./usage.js]. *)
Definition hooked : Scenario := withUsage "./usage.js" builtinRule.

(** An open pull request whose base is not known. *)
Definition baselessPR : PullRequest :=
  {| state := "open"; number := 3; base := None; labels := None |}.

Definition baseless : Scenario :=
  withPolicy EmptyString (Some baselessPR) twoChanges builtinRule.

(** The targets of the test suite's run, and what it gives the diff
    engine. *)
Definition suiteTargets : Targets := sdlTargets.

Definition suiteBuilt : Built string :=
  {| built_path := "schema.graphql";
     built_schemas := {| schemas_old := oldText; schemas_new := newText |};
     built_sources :=
       {| sources_old := {| source_body := oldText;
                            source_name := "master:schema.graphql" |};
          sources_new := {| source_body := newText;
                            source_name := "schema.graphql" |} |} |}.

Definition suiteDiff : DiffArgs string string unit :=
  diffArgs suiteBuilt ["suppressRemovalOfDeprecatedField"] None.

(** The targets of the pointer [master] under the pull request of the test
    suite, and those of the suite's pointer under a closed pull request. *)
Definition pathlessTargets : Targets :=
  {| schemaRef := "master"; schemaPath := None;
     headRef := Some "refs/pull/1/merge"; headWorkspace := None |}.

Definition plainTargets : Targets :=
  {| schemaRef := "master"; schemaPath := Some "schema.graphql";
     headRef := Some "0123abc"; headWorkspace := Some "/workspace" |}.

End Variants.

(** ** Laws of the trace monad *)

Section MonadFacts.

Variable Event : Type.
Implicit Types (P : Event -> Prop).

Lemma bind_val A B (m : M Event A) (k : A -> M Event B) tr a :
  m = (tr, Val a) -> bind m k = ((tr ++ fst (k a))%list, snd (k a)).
Proof. intros ->. reflexivity. Qed.

Lemma bind_return A B (m : M Event A) (k : A -> M Event B) :
  snd m = Return -> bind m k = (fst m, Return).
Proof. unfold bind. intros ->. reflexivity. Qed.

Lemma bind_throw A B (m : M Event A) (k : A -> M Event B) e :
  snd m = Throw e -> bind m k = (fst m, Throw e).
Proof. unfold bind. intros ->. reflexivity. Qed.

Lemma bind_ret_l A B (a : A) (k : A -> M Event B) : bind (ret a) k = k a.
Proof. unfold bind. simpl. now destruct (k a). Qed.

Lemma bind_ret_r A (m : M Event A) : bind m ret = m.
Proof.
  destruct m as [tr [a | | e]]; unfold bind; simpl; trivial.
  now rewrite app_nil_r.
Qed.

Lemma bind_assoc A B C (m : M Event A) (k : A -> M Event B)
      (h : B -> M Event C) :
  bind (bind m k) h = bind m (fun a => bind (k a) h).
Proof.
  destruct m as [tr [a | | e]]; unfold bind; simpl; trivial.
  destruct (k a) as [tr' [b | | e]]; simpl; trivial.
  now rewrite app_assoc.
Qed.

(** A block that falls through was built from blocks that fall through. *)
Lemma bind_val_inv A B (m : M Event A) (k : A -> M Event B) b :
  snd (bind m k) = Val b ->
  exists a, snd m = Val a /\ snd (k a) = Val b /\
            fst (bind m k) = (fst m ++ fst (k a))%list.
Proof.
  unfold bind. destruct (snd m) as [a | | e]; simpl; try discriminate.
  intros H. now exists a.
Qed.

Lemma Emits_bind P A B (m : M Event A) (k : A -> M Event B) :
  Emits P m -> (forall a, snd m = Val a -> Emits P (k a)) ->
  Emits P (bind m k).
Proof.
  unfold Emits, bind. intros Hm Hk.
  destruct (snd m) as [a | | e] eqn:E; simpl; trivial.
  apply Forall_app. split; auto.
Qed.

Lemma Emits_answer P A (r : Exn + A) : Emits P (answer (Event := Event) r).
Proof. destruct r; constructor. Qed.

Lemma Emits_emit P (e : Event) : P e -> Emits P (emit e).
Proof. intros H. repeat constructor. exact H. Qed.

Lemma EmitsIfVal_bind P A B (m : M Event A) (k : A -> M Event B) :
  EmitsIfVal P m -> (forall a, snd m = Val a -> EmitsIfVal P (k a)) ->
  EmitsIfVal P (bind m k).
Proof.
  unfold EmitsIfVal. intros Hm Hk [b Hb].
  destruct (bind_val_inv _ _ Hb) as (a & Ha & Hka & ->).
  apply Forall_app. split; eauto.
Qed.

Lemma Emits_EmitsIfVal P A (m : M Event A) : Emits P m -> EmitsIfVal P m.
Proof. intros H _. exact H. Qed.

Lemma EmitsIfVal_stops P A (m : M Event A) :
  (forall a, snd m <> Val a) -> EmitsIfVal P m.
Proof. intros H [a Ha]. now elim (H a). Qed.

Lemma Forall_not_In P (tr : list Event) (e : Event) :
  Forall P tr -> ~ P e -> ~ In e tr.
Proof. intros H Hn Hin. rewrite Forall_forall in H. exact (Hn (H _ Hin)). Qed.

End MonadFacts.

(** ** The stages of [run], one by one *)

Ltac unfold_core :=
  unfold core_info, core_error, core_setFailed, core_setOutput.

(** Walks through a block and checks every event it can emit. *)
Ltac emits :=
  unfold_core;
  repeat match goal with
    | |- Emits _ (bind _ _) => apply Emits_bind; [ | intros ? ? ]
    | |- Emits _ (answer _) => apply Emits_answer
    | |- Emits _ (emit _) =>
        apply Emits_emit;
        first [ reflexivity | intros ? [= <-]; reflexivity
              | intros ? ?; discriminate ]
    | |- Emits _ (ret _) => constructor
    | |- Emits _ exit => constructor
    | |- Emits _ (throw _) => constructor
    | |- Emits _ (match ?x with _ => _ end) => destruct x eqn:?
    end.

Section Properties.

Context {Rule Schema Hook Change Json Octokit : Type}.
Variable w : World Rule Schema Hook Change Json Octokit.

Local Abbreviation Ev := (Event Rule Schema Hook).

(** The settings are read with log messages only. *)
Lemma readSettings_logs : Emits (fun e : Ev => isLog e = true) (readSettings w).
Proof. unfold readSettings. emits. Qed.

Lemma readSettings_quiet :
  EmitsIfVal (fun e : Ev => isQuiet e = true) (readSettings w).
Proof.
  unfold readSettings. unfold_core.
  repeat (apply EmitsIfVal_bind;
          [ apply Emits_EmitsIfVal; emits | intros ? ? ]).
  destruct (Js.defined (GITHUB_WORKSPACE w)).
  - repeat (apply EmitsIfVal_bind;
            [ apply Emits_EmitsIfVal; emits | intros ? ? ]).
    destruct (context_repo w).
    repeat (apply EmitsIfVal_bind;
            [ apply Emits_EmitsIfVal; emits | intros ? ? ]).
    apply Emits_EmitsIfVal; emits.
  - apply EmitsIfVal_stops. intros ?. discriminate.
Qed.

Lemma requirePointer_logs (s : Settings Octokit) :
  Emits (fun e : Ev => isLog e = true) (requirePointer s).
Proof. unfold requirePointer. emits. Qed.

Lemma requirePointer_val (s s' : Settings Octokit) :
  snd (requirePointer (Rule := Rule) (Schema := Schema) (Hook := Hook) s)
    = Val s' ->
  s' = s /\ Js.truthy (schemaPointer s) = true /\
  fst (requirePointer s : M Ev _) = [].
Proof.
  unfold requirePointer. destruct (Js.truthy (schemaPointer s)); simpl.
  - intros [= <-]. auto.
  - discriminate.
Qed.

Lemma setup_logs : Emits (fun e : Ev => isLog e = true) (setup w).
Proof.
  unfold setup. apply Emits_bind.
  - apply readSettings_logs.
  - intros. apply requirePointer_logs.
Qed.

Lemma setup_quiet : EmitsIfVal (fun e : Ev => isQuiet e = true) (setup w).
Proof.
  unfold setup. apply EmitsIfVal_bind.
  - apply readSettings_quiet.
  - intros s _ [s' H]. apply requirePointer_val in H as (_ & _ & ->).
    constructor.
Qed.

(** The callback of [map] logs one error per unresolved reference and keeps
    every answer of [resolveRule], in order. *)
Lemma mapResolve_spec (refs : list string) :
  mapResolve w refs =
  (map invalidRule (filter (unresolved w) refs), Val (map (resolveRule w) refs)).
Proof.
  induction refs as [| r rest IH]; simpl; trivial.
  rewrite IH. unfold unresolved, invalidRule, core_error.
  destruct (resolveRule w r); unfold bind; simpl;
    rewrite ?app_nil_r; reflexivity.
Qed.

Lemma filterBoolean_length (l : list (option Rule)) :
  (length (filterBoolean l) <= length l)%nat.
Proof. induction l as [| [rule |] rest IH]; simpl; lia. Qed.

Lemma filterBoolean_resolved (refs : list string) :
  (forall r, In r refs -> resolveRule w r <> None) ->
  map (resolveRule w) refs = map Some (filterBoolean (map (resolveRule w) refs))
  /\ length (filterBoolean (map (resolveRule w) refs)) = length refs
  /\ filter (unresolved w) refs = [].
Proof.
  induction refs as [| r rest IH]; simpl; intros H; auto.
  destruct IH as (IH1 & IH2 & IH3); [ now auto | ].
  unfold unresolved at 1.
  destruct (resolveRule w r) as [rule |] eqn:E.
  - simpl. rewrite <- IH1, IH2, IH3. auto.
  - elim (H r); auto.
Qed.

Lemma filterBoolean_unresolved (refs : list string) r :
  In r refs -> resolveRule w r = None ->
  (length (filterBoolean (map (resolveRule w) refs)) < length refs)%nat.
Proof.
  induction refs as [| r' rest IH]; simpl; intros Hin Hr; [ easy | ].
  destruct Hin as [-> | Hin].
  - rewrite Hr. pose proof (filterBoolean_length (map (resolveRule w) rest)) as L.
    rewrite length_map in L. lia.
  - specialize (IH Hin Hr). destruct (resolveRule w r'); simpl; lia.
Qed.

(** The gate lets a fully resolved list through, silently. *)
Lemma resolveRules_accepts (s : Settings Octokit) :
  (forall r, In r (rulesList s) -> resolveRule w r <> None) ->
  resolveRules w s = ([], Val (filterBoolean (map (resolveRule w) (rulesList s)))).
Proof.
  intros H. destruct (filterBoolean_resolved _ H) as (_ & Hlen & Hnone).
  unfold resolveRules. rewrite mapResolve_spec, Hnone.
  unfold bind; simpl. rewrite Hlen, Nat.eqb_refl. reflexivity.
Qed.

(** The gate stops a list with an unresolved reference. *)
Lemma resolveRules_rejects (s : Settings Octokit) r :
  In r (rulesList s) -> resolveRule w r = None ->
  resolveRules w s =
  ((map invalidRule (filter (unresolved w) (rulesList s))
      ++ [CoreSetFailed "Some rules weren't recognised"])%list, Return).
Proof.
  intros Hin Hr. pose proof (filterBoolean_unresolved _ _ Hin Hr) as Hlt.
  unfold resolveRules. rewrite mapResolve_spec.
  unfold bind at 1; simpl.
  destruct (Nat.eqb_spec
              (length (filterBoolean (map (resolveRule w) (rulesList s))))
              (length (rulesList s))) as [E | _]; [ lia | ].
  reflexivity.
Qed.

Lemma resolveRules_logs (s : Settings Octokit) :
  Emits (fun e : Ev => isLog e = true) (resolveRules w s).
Proof.
  unfold resolveRules. apply Emits_bind.
  - rewrite mapResolve_spec. unfold Emits; simpl.
    apply Forall_forall. intros e He. apply in_map_iff in He as (r & <- & _).
    reflexivity.
  - intros. emits.
Qed.

(** Accepted rules: nothing was logged, and every reference resolved. *)
Lemma resolveRules_val (s : Settings Octokit) rules :
  snd (resolveRules w s) = Val rules ->
  resolveRules w s = ([], Val rules) /\
  map (resolveRule w) (rulesList s) = map Some rules.
Proof.
  intros H.
  assert (Hall : forall r, In r (rulesList s) -> resolveRule w r <> None).
  { intros r Hin Hr. rewrite (resolveRules_rejects _ _ Hin Hr) in H.
    discriminate. }
  rewrite (resolveRules_accepts _ Hall) in *. simpl in H.
  injection H as <-. split; trivial.
  apply (filterBoolean_resolved _ Hall).
Qed.

(** From the hook to the diff engine, a run neither marks itself failed nor
    sets an output. *)
Lemma compare_quiet (s : Settings Octokit) (rules : list Rule) :
  Emits (fun e : Ev => isQuiet e = true) (compare w s rules).
Proof.
  unfold compare, loadUsage, resolveTargets, loadSources, buildSchemas,
    invokeDiff.
  emits.
Qed.

(** Before the diff engine answers, nothing is reported as an output. *)
Lemma analyse_quiet : EmitsIfVal (fun e : Ev => isQuiet e = true) (analyse w).
Proof.
  unfold analyse. apply EmitsIfVal_bind; [ apply setup_quiet | intros s _ ].
  apply EmitsIfVal_bind.
  - intros [rules H]. apply resolveRules_val in H as [-> _]. constructor.
  - intros rules _. apply Emits_EmitsIfVal. apply Emits_bind.
    + apply compare_quiet.
    + intros. constructor.
Qed.

Lemma outputsOf_app (tr tr' : list Ev) :
  outputsOf (tr ++ tr') = (outputsOf tr ++ outputsOf tr')%list.
Proof.
  induction tr as [| e tr IH]; simpl; trivial.
  destruct e; simpl; now rewrite IH.
Qed.

Lemma outputsOf_quiet (tr : list Ev) :
  Forall (fun e => isQuiet e = true) tr -> outputsOf tr = [].
Proof.
  induction 1 as [| e tr He _ IH]; simpl; trivial.
  destruct e; simpl in *; trivial; discriminate.
Qed.

Lemma quiet_not_failed (tr : list Ev) message :
  Forall (fun e => isQuiet e = true) tr -> ~ In (CoreSetFailed message) tr.
Proof. intros H. apply (Forall_not_In _ H). discriminate. Qed.

Lemma logs_not_load (tr : list Ev) args :
  Forall (fun e => isLog e = true) tr -> ~ In (LoadFileCall args) tr.
Proof. intros H. apply (Forall_not_In _ H). discriminate. Qed.

Lemma logs_not_diff (tr : list Ev) args :
  Forall (fun e => isLog e = true) tr -> ~ In (DiffCall args) tr.
Proof. intros H. apply (Forall_not_In _ H). discriminate. Qed.

(** [run] as the sequence of its stages. *)
Lemma run_stages :
  run w =
  (s <- setup w ;;
   rules <- resolveRules w s ;;
   action <- compare w s rules ;;
   report w s action).
Proof.
  unfold run, analyse.
  destruct (setup w) as [t0 [s | | e]]; unfold bind; simpl; trivial.
  destruct (resolveRules w s) as [t1 [rules | | e]]; simpl; trivial.
  destruct (compare w s rules) as [t2 [action | | e]]; simpl;
    rewrite ?app_nil_r, ?app_assoc; trivial.
Qed.

Lemma run_reports tr s action :
  analyse w = (tr, Val (s, action)) ->
  run w = ((tr ++ fst (report w s action))%list, snd (report w s action)).
Proof. intros H. unfold run. now rewrite (bind_val _ H). Qed.

(** The trace of a run that reached the diff result holds no failure mark
    and no output. *)
Lemma analyse_val_quiet tr s action :
  analyse w = (tr, Val (s, action)) -> Forall (fun e => isQuiet e = true) tr.
Proof.
  intros H. pose proof analyse_quiet as Q. unfold EmitsIfVal in Q.
  rewrite H in Q. simpl in Q. eauto.
Qed.

(** The label test of line 165 finds a label exactly when the pull request
    carries it. *)
Lemma hasApprovedBreakingChangeLabel_spec (s : Settings Octokit) :
  hasApprovedBreakingChangeLabel s = true <-> carriesApprovalLabel s.
Proof.
  unfold hasApprovedBreakingChangeLabel, carriesApprovalLabel. split.
  - destruct (pullRequest s) as [pr |]; [ | discriminate ].
    destruct (labels pr) as [ls |] eqn:El; [ | discriminate ].
    intros H. apply existsb_exists in H as (label & Hin & Heq).
    apply String.eqb_eq in Heq. now exists pr, ls, label.
  - intros (pr & ls & label & -> & -> & Hin & Heq).
    apply existsb_exists. exists label. split; trivial.
    now apply String.eqb_eq.
Qed.

(** The two ways through lines 169-176. *)
Lemma overrideConclusion_cases (s : Settings Octokit) (raw : CheckConclusion) :
  ((overrideConclusion s raw : M Ev _) =
     ([CoreInfo "FailOnBreaking disabled. Forcing SUCCESS"], Val Success)
   /\ raw = Failure
   /\ (failOnBreaking s = false \/ hasApprovedBreakingChangeLabel s = true))
  \/
  ((overrideConclusion s raw : M Ev _) = ([], Val raw)
   /\ (raw = Success
       \/ (failOnBreaking s = true /\ hasApprovedBreakingChangeLabel s = false))).
Proof.
  unfold overrideConclusion.
  destruct raw, (failOnBreaking s), (hasApprovedBreakingChangeLabel s);
    simpl; auto.
Qed.

(** What lines 159-187 emit, by the conclusion that survives the override. *)
Lemma report_trace (s : Settings Octokit) (action : DiffResult Change) final :
  snd (overrideConclusion s (conclusion action) : M Ev _) = Val final ->
  let count := Js.ofNat (length (changesOf action)) in
  let summary := createSummary w (changesOf action) 100 false in
  report w s action =
  ((CoreSetOutput "changes" count :: CoreInfo ("Changes: " ++ count)
      :: fst (overrideConclusion s (conclusion action) : M Ev _)
      ++ CoreInfo ("Conclusion: " ++ conclusionText w final)
      :: match final with
         | Failure =>
             [CoreError summary;
              CoreSetFailed "Something is wrong with your schema"]
         | Success => [CoreInfo summary]
         end)%list,
   match final with
   | Failure => Return
   | Success => Val tt
   end).
Proof.
  intros H. unfold report.
  destruct (overrideConclusion_cases s (conclusion action))
    as [(E & _) | (E & _)]; rewrite E in *; simpl in H;
    injection H as <-.
  - reflexivity.
  - destruct (conclusion action); reflexivity.
Qed.

(** Lines 91-104 always fall through, and never touch the path. *)
Lemma resolveTargets_total (s : Settings Octokit) :
  exists (tr : list Ev) t,
    resolveTargets s = (tr, Val t) /\
    schemaPath t = snd (splitPointer (schemaPointer s)).
Proof.
  unfold resolveTargets.
  destruct (splitPointer (schemaPointer s)) as [pref ppath].
  destruct (useMerge s), (pullRequest s) as [pr |];
    try (eexists _, _; split; reflexivity).
  destruct (String.eqb (state pr) "open");
    try (eexists _, _; split; reflexivity).
  destruct (Js.defined (option_map base_ref (base pr)));
    eexists _, _; split; reflexivity.
Qed.

(** Once the hook stage falls through, both loads are requested. *)
Lemma compare_loads (s : Settings Octokit) rules tru config trt t :
  loadUsage w s = (tru, Val config) ->
  resolveTargets s = (trt, Val t) ->
  exists rest,
    fst (compare w s rules) =
    (tru ++ trt ++ LoadFileCall (oldLoad t) :: LoadFileCall (newLoad t) :: rest)%list.
Proof.
  intros Hu Ht. unfold compare.
  rewrite (bind_val _ Hu). cbn [fst]. rewrite (bind_val _ Ht). cbn [fst].
  unfold loadSources. unfold_core.
  set (k := fun files : string * string => _).
  rewrite !bind_assoc. unfold bind at 1. cbn [fst snd emit app].
  unfold bind at 1. cbn [fst snd emit app]. eauto.
Qed.

(** The trace of a run whose rules are accepted goes through [compare]. *)
Lemma run_compares tr s rules :
  setup w = (tr, Val s) ->
  resolveRules w s = ([], Val rules) ->
  exists rest, fst (run w) = (tr ++ fst (compare w s rules) ++ rest)%list.
Proof.
  intros Hs Hr. rewrite run_stages, (bind_val _ Hs). cbn [fst].
  rewrite (bind_val _ Hr). cbn [fst app].
  unfold bind. destruct (snd (compare w s rules)); cbn [fst]; eauto.
  exists []. now rewrite app_nil_r.
  exists []. now rewrite app_nil_r.
Qed.

(** The pointer is cut at every colon: the first segment ends at the first
    colon, the others come from the remainder. *)
Lemma split_colon (pointer : string) :
  Js.split ":" pointer =
  Spec.textBeforeFirstColon pointer
    :: match Spec.remainderAfterFirstColon pointer with
       | Some rest => Js.split ":" rest
       | None => []
       end.
Proof.
  induction pointer as [| c rest IH]; simpl; trivial.
  destruct (Ascii.eqb c ":"); trivial.
  now rewrite IH.
Qed.

Lemma textBeforeFirstColon_all (text : string) :
  Spec.hasColon text = false -> Spec.textBeforeFirstColon text = text.
Proof.
  induction text as [| c rest IH]; simpl; trivial.
  destruct (Ascii.eqb c ":"); simpl; [ discriminate | ].
  intros H. now rewrite IH.
Qed.

(** Without the hook, the diff engine gets no usage configuration. *)
Lemma compare_without_hook (s : Settings Octokit) rules tru :
  loadUsage w s = (tru, Val None) ->
  forall args, In (DiffCall args) (fst (compare w s rules)) ->
               diff_config args = None.
Proof.
  intros Hu.
  assert (Hall :
    Emits (fun e : Ev => forall args, e = DiffCall args -> diff_config args = None)
          (compare w s rules)).
  { unfold compare. apply Emits_bind.
    - unfold loadUsage. emits.
    - intros config Hc. rewrite Hu in Hc. injection Hc as <-.
      unfold resolveTargets, loadSources, buildSchemas, invokeDiff. emits. }
  intros args Hin. unfold Emits in Hall. rewrite Forall_forall in Hall.
  now apply (Hall _ Hin).
Qed.

(** The decimal text of a length reads back as that length. *)
Lemma ofNat_reads_back (n : nat) :
  option_map Nat.of_uint (NilZero.uint_of_string (Js.ofNat n)) = Some n.
Proof.
  unfold Js.ofNat. pose proof (DecimalNat.Unsigned.of_to n) as Hn.
  destruct (Nat.to_uint n) eqn:E;
    [ now rewrite <- Hn
    | rewrite NilZero.usu by discriminate; cbn [option_map]; now rewrite Hn .. ].
Qed.

(** The one output of a run that reached the answer of the diff engine. *)
Lemma run_outputs tr s action :
  analyse w = (tr, Val (s, action)) ->
  outputsOf (fst (run w)) =
  [("changes", Js.ofNat (length (changesOf action)))].
Proof.
  intros Han. rewrite (run_reports Han). cbn [fst].
  rewrite outputsOf_app, (outputsOf_quiet (analyse_val_quiet Han)).
  destruct (overrideConclusion_cases s (conclusion action))
    as [(E & _) | (E & _)].
  - rewrite (@report_trace s action Success) by now rewrite E.
    rewrite E. reflexivity.
  - rewrite (@report_trace s action (conclusion action)) by now rewrite E.
    rewrite E. destruct (conclusion action); reflexivity.
Qed.

(** ** The properties of the specification *)

(** C1. The conclusion override is a one-directional downgrade.  In every
    run that reaches the answer of the diff engine, a conclusion [final]
    survives lines 169-176; it is the one the run logs and the one that
    decides whether the run is marked failed.  When the raw conclusion is
    [Failure], [final] is [Success] if and only if fail-on-breaking is
    disabled or the pull request carries the approval label; when the raw
    conclusion is [Success], [final] is [Success]. *)
Theorem override_is_one_directional tr s action :
  analyse w = (tr, Val (s, action)) ->
  exists final,
    snd (overrideConclusion s (conclusion action) : M Ev _) = Val final /\
    In (CoreInfo ("Conclusion: " ++ conclusionText w final)) (fst (run w)) /\
    (In (CoreSetFailed "Something is wrong with your schema") (fst (run w))
     <-> final = Failure) /\
    (conclusion action = Failure ->
     (final = Success <-> failOnBreaking s = false \/ carriesApprovalLabel s)) /\
    (conclusion action = Success -> final = Success).
Proof.
  intros Han.
  assert (Hq := analyse_val_quiet Han).
  assert (Hlabel := hasApprovedBreakingChangeLabel_spec s).
  destruct (overrideConclusion_cases s (conclusion action))
    as [(E & Hraw & Hwhy) | (E & Hwhy)].
  - exists Success. rewrite (run_reports Han).
    rewrite (@report_trace s action Success) by now rewrite E.
    rewrite E. cbn [fst snd app].
    split; [ reflexivity | split; [ | split; [ | split ] ] ].
    + apply in_or_app. right. simpl. tauto.
    + split; [ | discriminate ].
      intros Hin. apply in_app_or in Hin as [Hin | Hin].
      * now elim (quiet_not_failed _ Hq Hin).
      * simpl in Hin. intuition discriminate.
    + intros _. split; trivial. intros _.
      destruct Hwhy as [Hf | Hl]; [ now left | right; now apply Hlabel ].
    + trivial.
  - exists (conclusion action). rewrite (run_reports Han).
    rewrite (@report_trace s action (conclusion action)) by now rewrite E.
    rewrite E. cbn [fst snd app].
    split; [ reflexivity | split; [ | split; [ | split ] ] ].
    + apply in_or_app. right. simpl. tauto.
    + split.
      * intros Hin. apply in_app_or in Hin as [Hin | Hin].
        -- now elim (quiet_not_failed _ Hq Hin).
        -- destruct (conclusion action); trivial.
           simpl in Hin. intuition discriminate.
      * intros ->. apply in_or_app. right. simpl. tauto.
    + intros Hfail. split; [ congruence | ].
      intros [Hf | Hc].
      * destruct Hwhy as [Hs | [Hf' _]]; congruence.
      * apply Hlabel in Hc. destruct Hwhy as [Hs | [_ Hl]]; congruence.
    + trivial.
Qed.

(** C2. Rule resolution is all-or-nothing.  In every run that reaches the
    rule list: when every reference resolves, the gate of lines 75-77 is
    passed silently with the resolved rules in the order of the references,
    and the run goes on with the rest of the pipeline, never marked with the
    gate's failure; when some reference does not resolve, the run logs the
    invalid references, is marked failed with the rules-not-recognised
    message and returns, and the diff engine is never called. *)
Theorem rule_resolution_is_all_or_nothing tr s :
  setup w = (tr, Val s) ->
  ((forall r, In r (rulesList s) -> resolveRule w r <> None) ->
   exists rules,
     map (resolveRule w) (rulesList s) = map Some rules /\
     resolveRules w s = ([], Val rules) /\
     (let rest := action <- compare w s rules ;; report w s action in
      run w = ((tr ++ fst rest)%list, snd rest)) /\
     ~ In (CoreSetFailed "Some rules weren't recognised") (fst (run w)))
  /\
  ((exists r, In r (rulesList s) /\ resolveRule w r = None) ->
   run w =
   ((tr ++ map invalidRule (filter (unresolved w) (rulesList s))
        ++ [CoreSetFailed "Some rules weren't recognised"])%list, Return)
   /\ forall args, ~ In (DiffCall args) (fst (run w))).
Proof.
  intros Hs.
  assert (Hlog : Forall (fun e : Ev => isLog e = true) tr).
  { pose proof setup_logs as L. unfold Emits in L. now rewrite Hs in L. }
  assert (Hquiet : Forall (fun e : Ev => isQuiet e = true) tr).
  { pose proof setup_quiet as Q. unfold EmitsIfVal in Q. rewrite Hs in Q.
    simpl in Q. eauto. }
  split.
  - intros Hall.
    destruct (filterBoolean_resolved _ Hall) as (Hmap & _ & _).
    exists (filterBoolean (map (resolveRule w) (rulesList s))).
    assert (Hrun :
      run w =
      ((tr ++ fst (action <- compare w s
                     (filterBoolean (map (resolveRule w) (rulesList s))) ;;
                   report w s action))%list,
       snd (action <- compare w s
              (filterBoolean (map (resolveRule w) (rulesList s))) ;;
            report w s action))).
    { rewrite run_stages, (bind_val _ Hs).
      now rewrite (resolveRules_accepts _ Hall). }
    split; [ exact Hmap | split; [ now apply resolveRules_accepts | split ] ].
    + exact Hrun.
    + rewrite Hrun. cbn [fst]. intros Hin.
      apply in_app_or in Hin as [Hin | Hin].
      * now elim (quiet_not_failed _ Hquiet Hin).
      * revert Hin. apply Forall_not_In with
          (P := fun e : Ev => e <> CoreSetFailed "Some rules weren't recognised");
          [ | now intros H; apply H ].
        apply Emits_bind.
        -- eapply Forall_impl; [ | apply compare_quiet ].
           intros e He ->. discriminate.
        -- intros action _. destruct (overrideConclusion_cases s (conclusion action))
             as [(E & _) | (E & _)].
           ++ rewrite (@report_trace s action Success) by now rewrite E.
              rewrite E. unfold Emits. cbn [fst app].
              repeat constructor; discriminate.
           ++ rewrite (@report_trace s action (conclusion action))
                by now rewrite E.
              rewrite E. unfold Emits. cbn [fst app].
              destruct (conclusion action); repeat constructor; discriminate.
  - intros (r & Hin & Hr).
    assert (Hrun :
      run w =
      ((tr ++ map invalidRule (filter (unresolved w) (rulesList s))
           ++ [CoreSetFailed "Some rules weren't recognised"])%list, Return)).
    { rewrite run_stages, (bind_val _ Hs).
      now rewrite (resolveRules_rejects _ _ Hin Hr). }
    split; [ exact Hrun | ].
    intros args. rewrite Hrun. cbn [fst]. apply logs_not_diff.
    apply Forall_app. split; trivial.
    apply Forall_app. split; [ | repeat constructor ].
    apply Forall_forall. intros e He.
    apply in_map_iff in He as (r' & <- & _). reflexivity.
Qed.

(** C3. Merge mode.  With merge mode enabled and an associated pull request
    in state [open], the head side is loaded from the merge reference
    [refs/pull/<number>/merge] with the workspace cleared, and the base side
    from the base ref of the pull request when that ref is known (defined
    and not empty).  With merge mode disabled, without a pull request, or
    with a pull request in another state, the base side is loaded from the
    ref of the pointer and the head side from the commit ref and the
    workspace of the environment, and nothing is logged.  In every case these
    are the two loads that lines 106-116 request, base side first. *)
Theorem merge_mode_targets s :
  (forall pr,
      useMerge s = true -> pullRequest s = Some pr -> state pr = "open" ->
      exists (tr : list Ev) t,
        resolveTargets s = (tr, Val t) /\
        newLoad t =
          {| load_ref := Some ("refs/pull/" ++ Js.ofZ (number pr) ++ "/merge");
             load_path := snd (splitPointer (schemaPointer s));
             load_workspace := None |} /\
        (forall b,
            base pr = Some b -> base_ref b <> EmptyString ->
            oldLoad t =
              {| load_ref := Some (base_ref b);
                 load_path := snd (splitPointer (schemaPointer s));
                 load_workspace := None |}))
  /\
  ((useMerge s = false \/ pullRequest s = None \/
    exists pr, pullRequest s = Some pr /\ state pr <> "open") ->
   exists t,
     (resolveTargets s : M Ev _) = ([], Val t) /\
     oldLoad t =
       {| load_ref := Some (fst (splitPointer (schemaPointer s)));
          load_path := snd (splitPointer (schemaPointer s));
          load_workspace := None |} /\
     newLoad t =
       {| load_ref := ref s;
          load_path := snd (splitPointer (schemaPointer s));
          load_workspace := Some (workspace s) |})
  /\
  (forall t, exists rest,
      fst (loadSources w s t)
      = LoadFileCall (oldLoad t) :: LoadFileCall (newLoad t) :: rest).
Proof.
  split; [ | split ].
  - intros pr Hm Hpr Hopen. unfold resolveTargets.
    destruct (splitPointer (schemaPointer s)) as [pref ppath].
    rewrite Hm, Hpr, Hopen. cbn [String.eqb]. rewrite !Ascii.eqb_refl.
    destruct (base pr) as [b |] eqn:Eb; cbn [option_map Js.defined].
    + destruct (base_ref b) as [| c rest] eqn:Er; cbn [Js.truthy].
      * eexists _, _. split; [ reflexivity | split; [ reflexivity | ] ].
        intros b' [= <-] Hne. now elim Hne.
      * eexists _, _. split; [ reflexivity | split; [ reflexivity | ] ].
        intros b' [= <-] _. unfold oldLoad. cbn. now rewrite Er.
    + eexists _, _. split; [ reflexivity | split; [ reflexivity | ] ].
      intros b' [=].
  - intros Hoff. unfold resolveTargets.
    destruct (splitPointer (schemaPointer s)) as [pref ppath].
    destruct Hoff as [Hm | [Hpr | (pr & Hpr & Hst)]].
    + rewrite Hm. eexists. split; [ reflexivity | split; reflexivity ].
    + rewrite Hpr.
      destruct (useMerge s);
        (eexists; split; [ reflexivity | split; reflexivity ]).
    + rewrite Hpr. apply String.eqb_neq in Hst. rewrite Hst.
      destruct (useMerge s);
        (eexists; split; [ reflexivity | split; reflexivity ]).
  - intros t. unfold loadSources, bind. cbn. eauto.
Qed.

(** C4, as the code has it.  The guard of lines 57-60 looks at the whole
    pointer, not at its path segment.  For an empty pointer the run logs
    the missing variable, is marked failed with a configuration error and
    returns, and no file load is requested.  A pointer that is not empty is
    not checked further: once the rules and the hook stage are passed, both
    file loads are requested with the path the split gives, whatever it is
    (empty or undefined included). *)
Theorem empty_pointer_fails_before_loading tr s :
  readSettings w = (tr, Val s) ->
  (schemaPointer s = EmptyString ->
   run w =
   ((tr ++ [CoreError "No `schema` variable";
            CoreSetFailed "Failed to find `schema` variable"])%list, Return)
   /\ forall args, ~ In (LoadFileCall args) (fst (run w)))
  /\
  (schemaPointer s <> EmptyString ->
   (forall r, In r (rulesList s) -> resolveRule w r <> None) ->
   (exists tru config, loadUsage w s = (tru, Val config)) ->
   exists t,
     snd (resolveTargets s : M Ev _) = Val t /\
     schemaPath t = snd (splitPointer (schemaPointer s)) /\
     In (LoadFileCall (oldLoad t)) (fst (run w)) /\
     In (LoadFileCall (newLoad t)) (fst (run w))).
Proof.
  intros Hread.
  assert (Hlog : Forall (fun e : Ev => isLog e = true) tr).
  { pose proof readSettings_logs as L. unfold Emits in L.
    now rewrite Hread in L. }
  split.
  - intros Hempty.
    assert (Hrun :
      run w =
      ((tr ++ [CoreError "No `schema` variable";
               CoreSetFailed "Failed to find `schema` variable"])%list, Return)).
    { rewrite run_stages. unfold setup. rewrite (bind_val _ Hread).
      unfold requirePointer. rewrite Hempty. reflexivity. }
    split; [ exact Hrun | ].
    intros args. rewrite Hrun. cbn [fst]. apply logs_not_load.
    apply Forall_app. split; trivial. repeat constructor.
  - intros Hne Hrules (tru & config & Hu).
    assert (Hs : setup w = ((tr ++ [])%list, Val s)).
    { unfold setup. rewrite (bind_val _ Hread). unfold requirePointer.
      destruct (schemaPointer s); [ now elim Hne | reflexivity ]. }
    destruct (resolveTargets_total s) as (trt & t & Ht & Hpath).
    destruct (run_compares Hs (resolveRules_accepts _ Hrules)) as (rest & Hrun).
    destruct (@compare_loads s
                (filterBoolean (map (resolveRule w) (rulesList s))) _ _ _ _
                Hu Ht)
      as (rest' & Hcmp).
    exists t. rewrite Ht. split; [ reflexivity | split; [ exact Hpath | ] ].
    rewrite Hrun, Hcmp.
    rewrite !in_app_iff. simpl. tauto.
Qed.

(** C5, as the code has it.  For a configured usage-check hook path, a
    module that loads but exports a falsy value is treated as no usage check
    being configured: the hook stage falls through without a configuration
    and the diff engine, if the run gets to it, is called without one.  A
    load that throws is not caught: the comparison stops at the [require]
    call with that exception, and a run that had reached this point rejects
    with it. *)
Theorem usage_hook_load s rules :
  Js.truthy (onUsage s) = true ->
  (require w (onUsage s) = inr None ->
   loadUsage w s = ([RequireCall (onUsage s)], Val None) /\
   forall args, In (DiffCall args) (fst (compare w s rules)) ->
                diff_config args = None)
  /\
  (forall e, require w (onUsage s) = inl e ->
   compare w s rules = ([RequireCall (onUsage s)], Throw e) /\
   forall tr, setup w = (tr, Val s) -> resolveRules w s = ([], Val rules) ->
              run w = ((tr ++ [RequireCall (onUsage s)])%list, Throw e)).
Proof.
  intros Hon. split.
  - intros Hreq.
    assert (Hu : loadUsage w s = ([RequireCall (onUsage s)], Val None)).
    { unfold loadUsage. rewrite Hon. unfold bind. cbn. now rewrite Hreq. }
    split; [ exact Hu | ]. now apply compare_without_hook with (tru := [RequireCall (onUsage s)]).
  - intros e Hreq.
    assert (Hc : compare w s rules = ([RequireCall (onUsage s)], Throw e)).
    { unfold compare, loadUsage. rewrite Hon. unfold bind. cbn.
      now rewrite Hreq. }
    split; [ exact Hc | ].
    intros tr Hs Hr. rewrite run_stages, (bind_val _ Hs), (bind_val _ Hr).
    cbn [fst snd app]. now rewrite Hc.
Qed.

(** C6, as the code has it.  The resolved ref is the text before the first
    colon.  The resolved path is the text between the first and the second
    colon: it is undefined when the pointer has no colon, and it is the
    entire remainder after the first colon only when that remainder holds no
    further colon. *)
Theorem pointer_split pointer :
  fst (splitPointer pointer) = Spec.textBeforeFirstColon pointer /\
  snd (splitPointer pointer) =
    option_map Spec.textBeforeFirstColon (Spec.remainderAfterFirstColon pointer)
  /\
  (forall rest,
      Spec.remainderAfterFirstColon pointer = Some rest ->
      Spec.hasColon rest = false ->
      snd (splitPointer pointer) = Some rest).
Proof.
  assert (Hsnd :
    snd (splitPointer pointer) =
    option_map Spec.textBeforeFirstColon (Spec.remainderAfterFirstColon pointer)).
  { unfold splitPointer. rewrite split_colon. cbn [snd nth_error].
    destruct (Spec.remainderAfterFirstColon pointer) as [rest |]; trivial.
    rewrite split_colon. reflexivity. }
  split; [ | split; [ exact Hsnd | ] ].
  - unfold splitPointer. now rewrite split_colon.
  - intros rest Hrest Hno. rewrite Hsnd, Hrest. cbn.
    now rewrite textBeforeFirstColon_all.
Qed.

(** C7. The schema builder.  The branch is chosen by comparing the
    extension of the lower-cased path with [.json], so two paths that differ
    only in letter case take the same branch.  For a [.json] path each blob
    is parsed as JSON, built into a schema with [buildClientSchema], and the
    printed schema is the body of its source.  Otherwise each blob is the
    body of its source and the schemas are produced from these sources.  In
    both branches the old source is named [<ref>:<path>] and the new one by
    the bare path, and the diff engine is called with the schemas and
    sources so built. *)
Theorem schema_builder t oldFile newFile path :
  schemaPath t = Some path ->
  (isIntrospection w path = true <-> extname w (Js.toLowerCase path) = ".json")
  /\
  (forall other,
      Js.toLowerCase other = Js.toLowerCase path ->
      isIntrospection w other = isIntrospection w path)
  /\
  (isIntrospection w path = true ->
   forall oldJson oldSchema newJson newSchema,
     JSON_parse w oldFile = inr oldJson ->
     buildClientSchema w oldJson = inr oldSchema ->
     JSON_parse w newFile = inr newJson ->
     buildClientSchema w newJson = inr newSchema ->
     buildSchemas w t oldFile newFile =
     ([CoreInfo "Built both schemas"],
      Val {| built_path := path;
             built_schemas :=
               {| schemas_old := oldSchema; schemas_new := newSchema |};
             built_sources :=
               {| sources_old :=
                    {| source_body := printSchema w oldSchema;
                       source_name := schemaRef t ++ ":" ++ path |};
                  sources_new :=
                    {| source_body := printSchema w newSchema;
                       source_name := path |} |} |}))
  /\
  (isIntrospection w path = false ->
   forall oldSchema newSchema,
     produceSchema w {| source_body := oldFile;
                        source_name := schemaRef t ++ ":" ++ path |}
       = inr oldSchema ->
     produceSchema w {| source_body := newFile; source_name := path |}
       = inr newSchema ->
     buildSchemas w t oldFile newFile =
     ([CoreInfo "Built both schemas"],
      Val {| built_path := path;
             built_schemas :=
               {| schemas_old := oldSchema; schemas_new := newSchema |};
             built_sources :=
               {| sources_old :=
                    {| source_body := oldFile;
                       source_name := schemaRef t ++ ":" ++ path |};
                  sources_new :=
                    {| source_body := newFile; source_name := path |} |} |}))
  /\
  (forall b rules config,
      fst (invokeDiff w b rules config) =
      [CoreInfo "Start comparing schemas";
       DiffCall {| diff_path := built_path b;
                   diff_schemas := built_schemas b;
                   diff_sources := built_sources b;
                   diff_rules := rules;
                   diff_config := config |}]).
Proof.
  intros Hpath. split; [ | split; [ | split; [ | split ] ] ].
  - unfold isIntrospection. apply String.eqb_eq.
  - intros other Hlow. unfold isIntrospection. now rewrite Hlow.
  - intros Hjson oldJson oldSchema newJson newSchema Hoj Hos Hnj Hns.
    unfold buildSchemas. rewrite Hpath, Hjson, Hoj.
    cbn [answer]. rewrite bind_ret_l, Hos.
    cbn [answer]. rewrite bind_ret_l, Hnj.
    cbn [answer]. rewrite bind_ret_l, Hns.
    reflexivity.
  - intros Hsdl oldSchema newSchema Hos Hns.
    unfold buildSchemas. rewrite Hpath, Hsdl.
    cbv zeta. cbn [sources_old sources_new]. rewrite Hos, Hns. reflexivity.
  - intros b rules config. unfold invokeDiff, bind. cbn.
    destruct (diff w (diffArgs b rules config)); reflexivity.
Qed.

(** C8. In every run that reaches the answer of the diff engine, the run
    sets exactly one output, [changes], whose value is the decimal text of
    the number of changes of that answer; it reads back as that number, and
    it is [0] when the answer has no change list. *)
Theorem changes_output_counts tr s action :
  analyse w = (tr, Val (s, action)) ->
  outputsOf (fst (run w)) =
    [("changes", Js.ofNat (length (changesOf action)))] /\
  option_map Nat.of_uint
    (NilZero.uint_of_string (Js.ofNat (length (changesOf action))))
    = Some (length (changesOf action)) /\
  (forall l, changes action = Some l ->
             outputsOf (fst (run w)) = [("changes", Js.ofNat (length l))]) /\
  (changes action = None -> outputsOf (fst (run w)) = [("changes", "0")]).
Proof.
  intros Han. pose proof (run_outputs Han) as Hout.
  split; [ exact Hout | split; [ apply ofNat_reads_back | split ] ].
  - intros l Hl. rewrite Hout. unfold changesOf. now rewrite Hl.
  - intros Hnone. rewrite Hout. unfold changesOf. now rewrite Hnone.
Qed.

(** C9. In every run that reaches a final conclusion: on [Failure] the run
    ends by emitting the summary as an error message and marking itself
    failed with the fixed schema-problem message, and returns; on [Success]
    it ends by emitting the summary as an informational message, completes,
    and is not marked failed anywhere. *)
Theorem verdict_is_reported tr s action final :
  analyse w = (tr, Val (s, action)) ->
  snd (overrideConclusion s (conclusion action) : M Ev _) = Val final ->
  (final = Failure ->
   snd (run w) = Return /\
   exists before,
     fst (run w) =
     (before ++ [CoreError (createSummary w (changesOf action) 100 false);
                 CoreSetFailed "Something is wrong with your schema"])%list)
  /\
  (final = Success ->
   snd (run w) = Val tt /\
   (exists before,
     fst (run w) =
     (before ++ [CoreInfo (createSummary w (changesOf action) 100 false)])%list)
   /\ forall message, ~ In (CoreSetFailed message) (fst (run w))).
Proof.
  intros Han Hfinal.
  assert (Hq := analyse_val_quiet Han).
  rewrite (run_reports Han), (report_trace _ _ Hfinal). cbn [fst snd].
  split; intros ->.
  - split; trivial.
    eexists (tr ++ _ :: _ :: fst (overrideConclusion s (conclusion action)) ++ [_])%list.
    rewrite <- !app_assoc. cbn [app]. rewrite <- !app_assoc. reflexivity.
  - split; trivial. split.
    + eexists (tr ++ _ :: _ :: fst (overrideConclusion s (conclusion action)) ++ [_])%list.
      rewrite <- !app_assoc. cbn [app]. rewrite <- !app_assoc. reflexivity.
    + intros message Hin. apply in_app_or in Hin as [Hin | Hin].
      * now elim (quiet_not_failed _ Hq Hin).
      * destruct (overrideConclusion_cases s (conclusion action))
          as [(E & _) | (E & _)]; rewrite E in Hin; cbn in Hin;
          intuition discriminate.
Qed.

End Properties.

Section TwoRuns.

Context {Rule Schema Hook Change Json Octokit : Type}.
Variables w w' : World Rule Schema Hook Change Json Octokit.

Local Abbreviation Ev := (Event Rule Schema Hook).

(** C10. The [changes] output is set first thing after the diff engine
    answers, before the override of lines 165-176 runs, and its value depends
    on the answer only: two reports of the same answer under different
    settings (fail-on-breaking, approval label, pull request) set the same
    outputs, and so do two runs that got the same answer. *)
Theorem changes_output_ignores_override (s s' : Settings Octokit) action :
  (exists rest,
      fst (report w s action) =
      (CoreSetOutput "changes" (Js.ofNat (length (changesOf action)))
         :: CoreInfo ("Changes: " ++ Js.ofNat (length (changesOf action)))
         :: fst (overrideConclusion s (conclusion action) : M Ev _) ++ rest)%list
      /\ outputsOf rest = [])
  /\
  outputsOf (fst (report w s action)) = outputsOf (fst (report w s' action))
  /\
  (forall tr tr',
      analyse w = (tr, Val (s, action)) ->
      analyse w' = (tr', Val (s', action)) ->
      outputsOf (fst (run w)) = outputsOf (fst (run w'))).
Proof.
  assert (Hrep : forall s0 : Settings Octokit,
    exists rest,
      fst (report w s0 action) =
      (CoreSetOutput "changes" (Js.ofNat (length (changesOf action)))
         :: CoreInfo ("Changes: " ++ Js.ofNat (length (changesOf action)))
         :: fst (overrideConclusion s0 (conclusion action) : M Ev _) ++ rest)%list
      /\ outputsOf rest = []
      /\ outputsOf (fst (report w s0 action))
         = [("changes", Js.ofNat (length (changesOf action)))]).
  { intros s0.
    destruct (overrideConclusion_cases (Rule := Rule) (Schema := Schema)
                (Hook := Hook) s0 (conclusion action))
      as [(E & _) | (E & _)].
    - rewrite (@report_trace _ _ _ _ _ _ w s0 action Success) by now rewrite E.
      rewrite E. cbn [fst]. eexists. split; [ reflexivity | split; reflexivity ].
    - rewrite (@report_trace _ _ _ _ _ _ w s0 action (conclusion action))
        by now rewrite E.
      rewrite E. cbn [fst]. eexists. split; [ reflexivity | ].
      destruct (conclusion action); split; reflexivity. }
  split; [ | split ].
  - destruct (Hrep s) as (rest & H1 & H2 & _). eauto.
  - destruct (Hrep s) as (? & _ & _ & ->).
    destruct (Hrep s') as (? & _ & _ & ->). reflexivity.
  - intros tr tr' Han Han'.
    now rewrite (run_outputs _ Han), (run_outputs _ Han').
Qed.

End TwoRuns.

(** ** The properties on the scenarios *)

Module Scenarios.

Import Fixture.

Local Abbreviation Ev := (Event string string unit).
Local Abbreviation approved := (world breakingApproved).
Local Abbreviation enforced := (world breakingEnforced).
Local Abbreviation tolerated := (world breakingTolerated).
Local Abbreviation accepted := (world builtinRule).
Local Abbreviation rejected := (world unknownRule).

(** A breaking change on a pull request that carries the approval label is
    forced to [Success], and the run is not marked failed. *)
Lemma override_is_one_directional_witness :
  analyse approved
  = (fst (analyse approved), Val (settings breakingApproved, breaking))
  /\
  exists final,
    snd (overrideConclusion (settings breakingApproved) (conclusion breaking)
         : M Ev _) = Val final /\
    In (CoreInfo ("Conclusion: " ++ conclusionText approved final))
       (fst (run approved)) /\
    (In (CoreSetFailed "Something is wrong with your schema")
        (fst (run approved)) <-> final = Failure) /\
    (conclusion breaking = Failure ->
     (final = Success <->
      failOnBreaking (settings breakingApproved) = false \/
      carriesApprovalLabel (settings breakingApproved))) /\
    (conclusion breaking = Success -> final = Success).
Proof.
  split; [ reflexivity | ].
  exact (override_is_one_directional approved eq_refl).
Defined.

(** The list of the test suite passes the gate; a list with an unknown
    reference stops the run before the diff engine. *)
Lemma rule_resolution_is_all_or_nothing_witness :
  (setup accepted = (fst (setup accepted), Val (settings builtinRule))
   /\ (forall r, In r (rulesList (settings builtinRule)) ->
                 resolveRule accepted r <> None)
   /\ exists rules,
       map (resolveRule accepted) (rulesList (settings builtinRule))
       = map Some rules /\
       resolveRules accepted (settings builtinRule) = ([], Val rules) /\
       (let rest :=
          action <- compare accepted (settings builtinRule) rules ;;
          report accepted (settings builtinRule) action in
        run accepted = ((fst (setup accepted) ++ fst rest)%list, snd rest)) /\
       ~ In (CoreSetFailed "Some rules weren't recognised") (fst (run accepted)))
  /\
  (setup rejected = (fst (setup rejected), Val (settings unknownRule))
   /\ (exists r, In r (rulesList (settings unknownRule)) /\
                 resolveRule rejected r = None)
   /\ run rejected =
      ((fst (setup rejected)
          ++ map invalidRule
               (filter (unresolved rejected) (rulesList (settings unknownRule)))
          ++ [CoreSetFailed "Some rules weren't recognised"])%list, Return)
   /\ forall args, ~ In (DiffCall args) (fst (run rejected))).
Proof.
  assert (Hall : forall r, In r (rulesList (settings builtinRule)) ->
                           resolveRule accepted r <> None).
  { intros r [<- | []]. discriminate. }
  assert (Hone : exists r, In r (rulesList (settings unknownRule)) /\
                           resolveRule rejected r = None).
  { exists "noSuchRule". split; [ simpl; tauto | reflexivity ]. }
  split.
  - split; [ reflexivity | split; [ exact Hall | ] ].
    exact (proj1 (rule_resolution_is_all_or_nothing accepted eq_refl) Hall).
  - split; [ reflexivity | split; [ exact Hone | ] ].
    exact (proj2 (rule_resolution_is_all_or_nothing rejected eq_refl) Hone).
Defined.

(** The open pull request of the test suite moves both loads; a closed one,
    or merge mode switched off, leaves the pointer ref, the commit ref and
    the workspace in place. *)
Lemma merge_mode_targets_witness :
  (useMerge (settings builtinRule) = true /\
   pullRequest (settings builtinRule) = Some openPR /\
   state openPR = "open" /\
   exists (tr : list Ev) t,
     resolveTargets (settings builtinRule) = (tr, Val t) /\
     newLoad t =
       {| load_ref := Some "refs/pull/1/merge";
          load_path := Some "schema.graphql"; load_workspace := None |} /\
     oldLoad t =
       {| load_ref := Some "master";
          load_path := Some "schema.graphql"; load_workspace := None |})
  /\
  (pullRequest (settings closedRequest) = Some closedPR /\
   state closedPR <> "open" /\
   exists t,
     (resolveTargets (settings closedRequest) : M Ev _) = ([], Val t) /\
     oldLoad t =
       {| load_ref := Some "master";
          load_path := Some "schema.graphql"; load_workspace := None |} /\
     newLoad t =
       {| load_ref := Some "0123abc";
          load_path := Some "schema.graphql";
          load_workspace := Some "/workspace" |})
  /\
  (useMerge (settings mergeOff) = false /\
   exists t,
     (resolveTargets (settings mergeOff) : M Ev _) = ([], Val t) /\
     oldLoad t =
       {| load_ref := Some "master";
          load_path := Some "schema.graphql"; load_workspace := None |} /\
     newLoad t =
       {| load_ref := Some "0123abc";
          load_path := Some "schema.graphql";
          load_workspace := Some "/workspace" |}).
Proof.
  split; [ | split ].
  - split; [ reflexivity | split; [ reflexivity | split; [ reflexivity | ] ] ].
    destruct (proj1 (merge_mode_targets accepted (settings builtinRule))
                openPR eq_refl eq_refl eq_refl) as (tr & t & H1 & H2 & H3).
    exists tr, t. split; [ exact H1 | split; [ exact H2 | ] ].
    apply (H3 {| base_ref := "master" |} eq_refl). discriminate.
  - assert (Hst : state closedPR <> "open") by discriminate.
    split; [ reflexivity | split; [ exact Hst | ] ].
    apply (proj1 (proj2 (merge_mode_targets accepted (settings closedRequest)))).
    right. right. exists closedPR. split; [ reflexivity | exact Hst ].
  - split; [ reflexivity | ].
    apply (proj1 (proj2 (merge_mode_targets accepted (settings mergeOff)))).
    left. reflexivity.
Defined.

(** The pointer [master], without a colon, has no path, and the run asks
    for both files all the same; it is never marked failed and ends in the
    type error of line 124.  The pointer [master:] has an empty path: both
    files are asked for and the run completes. *)
Lemma pointer_without_path_is_loaded :
  (snd (splitPointer "master") = None /\
   In (LoadFileCall {| load_ref := Some "master"; load_path := None;
                       load_workspace := None |})
      (fst (run (world pathless))) /\
   In (LoadFileCall {| load_ref := Some "refs/pull/1/merge"; load_path := None;
                       load_workspace := None |})
      (fst (run (world pathless))) /\
   (forall message, ~ In (CoreSetFailed message) (fst (run (world pathless)))) /\
   snd (run (world pathless)) =
     Throw "TypeError: Cannot read properties of undefined (reading 'toLowerCase')")
  /\
  (snd (splitPointer "master:") = Some EmptyString /\
   In (LoadFileCall {| load_ref := Some "master"; load_path := Some EmptyString;
                       load_workspace := None |})
      (fst (run (world emptyPath))) /\
   (forall message, ~ In (CoreSetFailed message) (fst (run (world emptyPath)))) /\
   snd (run (world emptyPath)) = Val tt).
Proof.
  split.
  - split; [ reflexivity | ].
    split; [ cbv; tauto | ]. split; [ cbv; tauto | ].
    split; [ | reflexivity ].
    intros message H. cbv in H. intuition discriminate.
  - split; [ reflexivity | ]. split; [ cbv; tauto | ].
    split; [ | reflexivity ].
    intros message H. cbv in H. intuition discriminate.
Qed.

(** Without a pointer the run stops at the guard; with the pointer [master]
    the guard is passed and both loads are requested without a path. *)
Lemma empty_pointer_fails_before_loading_witness :
  (readSettings (world emptyPointer)
   = (fst (readSettings (world emptyPointer)), Val (settings emptyPointer)) /\
   schemaPointer (settings emptyPointer) = EmptyString /\
   run (world emptyPointer) =
   ((fst (readSettings (world emptyPointer))
       ++ [CoreError "No `schema` variable";
           CoreSetFailed "Failed to find `schema` variable"])%list, Return) /\
   forall args, ~ In (LoadFileCall args) (fst (run (world emptyPointer))))
  /\
  (readSettings (world pathless)
   = (fst (readSettings (world pathless)), Val (settings pathless)) /\
   schemaPointer (settings pathless) <> EmptyString /\
   exists t,
     snd (resolveTargets (settings pathless) : M Ev _) = Val t /\
     schemaPath t = None /\
     In (LoadFileCall (oldLoad t)) (fst (run (world pathless))) /\
     In (LoadFileCall (newLoad t)) (fst (run (world pathless)))).
Proof.
  split.
  - split; [ reflexivity | split; [ reflexivity | ] ].
    exact (proj1 (@empty_pointer_fails_before_loading _ _ _ _ _ _
                    (world emptyPointer) _ _ eq_refl)
             eq_refl).
  - assert (Hne : schemaPointer (settings pathless) <> EmptyString)
      by discriminate.
    split; [ reflexivity | split; [ exact Hne | ] ].
    apply (proj2 (@empty_pointer_fails_before_loading _ _ _ _ _ _
                    (world pathless) _ _ eq_refl)
             Hne).
    + intros r [<- | []]. discriminate.
    + exists [], None. reflexivity.
Defined.

(** A hook path without a module behind it: [require] throws, the run
    rejects with that exception right after the [require] call, and the diff
    engine is not called. *)
Lemma failed_hook_load_rejects_the_run :
  require (world missingHook) "./missing.js"
  = inl "Cannot find module './missing.js'"
  /\
  run (world missingHook) =
  ([CoreInfo "GraphQL Inspector started"; CoreInfo "Ref: 0123abc";
    CoreInfo "Commit SHA: 0123abc";
    CoreInfo ("Creating a job named " ++ Js.dquote ++ "GraphQL Inspector"
                ++ Js.dquote);
    RequireCall "./missing.js"],
   Throw "Cannot find module './missing.js'")
  /\
  forall args, ~ In (DiffCall args) (fst (run (world missingHook))).
Proof.
  split; [ reflexivity | split; [ reflexivity | ] ].
  intros args H. cbv in H. intuition discriminate.
Qed.

(** A module that exports nothing leaves the run without a usage check; a
    module that cannot be loaded stops it. *)
Lemma usage_hook_load_witness :
  (Js.truthy (onUsage (settings emptyHook)) = true /\
   require (world emptyHook) (onUsage (settings emptyHook)) = inr None /\
   loadUsage (world emptyHook) (settings emptyHook)
   = ([RequireCall "./empty.js"], Val None) /\
   forall args,
     In (DiffCall args)
        (fst (compare (world emptyHook) (settings emptyHook)
                ["suppressRemovalOfDeprecatedField"])) ->
     diff_config args = None)
  /\
  (Js.truthy (onUsage (settings missingHook)) = true /\
   require (world missingHook) (onUsage (settings missingHook))
   = inl "Cannot find module './missing.js'" /\
   compare (world missingHook) (settings missingHook)
     ["suppressRemovalOfDeprecatedField"]
   = ([RequireCall "./missing.js"], Throw "Cannot find module './missing.js'") /\
   forall tr,
     setup (world missingHook) = (tr, Val (settings missingHook)) ->
     resolveRules (world missingHook) (settings missingHook)
     = ([], Val ["suppressRemovalOfDeprecatedField"]) ->
     run (world missingHook)
     = ((tr ++ [RequireCall "./missing.js"])%list,
        Throw "Cannot find module './missing.js'")).
Proof.
  split.
  - split; [ reflexivity | split; [ reflexivity | ] ].
    exact (proj1 (@usage_hook_load _ _ _ _ _ _ (world emptyHook)
                    (settings emptyHook) ["suppressRemovalOfDeprecatedField"]
                    eq_refl) eq_refl).
  - split; [ reflexivity | split; [ reflexivity | ] ].
    exact (proj2 (@usage_hook_load _ _ _ _ _ _ (world missingHook)
                    (settings missingHook) ["suppressRemovalOfDeprecatedField"]
                    eq_refl) _ eq_refl).
Defined.

(** A pointer with two colons: the path stops at the second colon, so it is
    not the remainder after the first one, and the files are loaded from the
    shortened path. *)
Lemma second_colon_cuts_the_path :
  splitPointer "master:dir:schema.graphql" = ("master", Some "dir") /\
  Spec.remainderAfterFirstColon "master:dir:schema.graphql"
  = Some "dir:schema.graphql" /\
  snd (splitPointer "master:dir:schema.graphql")
  <> Spec.remainderAfterFirstColon "master:dir:schema.graphql" /\
  In (LoadFileCall {| load_ref := Some "master"; load_path := Some "dir";
                      load_workspace := None |})
     (fst (run (world twoColons))).
Proof.
  split; [ reflexivity | split; [ reflexivity | split ] ].
  - discriminate.
  - cbv. tauto.
Qed.

(** The pointer of the test suite has one colon: its path is the whole
    remainder. *)
Lemma pointer_split_witness :
  fst (splitPointer "master:schema.graphql") = "master" /\
  Spec.remainderAfterFirstColon "master:schema.graphql" = Some "schema.graphql" /\
  Spec.hasColon "schema.graphql" = false /\
  snd (splitPointer "master:schema.graphql") = Some "schema.graphql".
Proof.
  destruct (pointer_split "master:schema.graphql") as (H1 & _ & H3).
  split; [ exact H1 | split; [ reflexivity | split; [ reflexivity | ] ] ].
  exact (H3 "schema.graphql" eq_refl eq_refl).
Defined.

(** An introspection file in upper case goes through the JSON branch, a
    definition file through the other one. *)
Lemma schema_builder_witness :
  (schemaPath jsonTargets = Some "schema.JSON" /\
   isIntrospection accepted "schema.JSON" = true /\
   buildSchemas accepted jsonTargets oldText newText =
   ([CoreInfo "Built both schemas"],
    Val {| built_path := "schema.JSON";
           built_schemas :=
             {| schemas_old := oldText; schemas_new := newText |};
           built_sources :=
             {| sources_old :=
                  {| source_body := printSchema accepted oldText;
                     source_name := "master:schema.JSON" |};
                sources_new :=
                  {| source_body := printSchema accepted newText;
                     source_name := "schema.JSON" |} |} |}))
  /\
  (schemaPath sdlTargets = Some "schema.graphql" /\
   isIntrospection accepted "schema.graphql" = false /\
   buildSchemas accepted sdlTargets oldText newText =
   ([CoreInfo "Built both schemas"],
    Val {| built_path := "schema.graphql";
           built_schemas :=
             {| schemas_old := oldText; schemas_new := newText |};
           built_sources :=
             {| sources_old :=
                  {| source_body := oldText;
                     source_name := "master:schema.graphql" |};
                sources_new :=
                  {| source_body := newText;
                     source_name := "schema.graphql" |} |} |})).
Proof.
  split.
  - split; [ reflexivity | split; [ reflexivity | ] ].
    destruct (@schema_builder _ _ _ _ _ _ accepted jsonTargets oldText newText
                "schema.JSON" eq_refl) as (_ & _ & Hjson & _ & _).
    exact (Hjson eq_refl oldText oldText newText newText
             eq_refl eq_refl eq_refl eq_refl).
  - split; [ reflexivity | split; [ reflexivity | ] ].
    destruct (@schema_builder _ _ _ _ _ _ accepted sdlTargets oldText newText
                "schema.graphql" eq_refl) as (_ & _ & _ & Hsdl & _).
    exact (Hsdl eq_refl oldText newText eq_refl eq_refl).
Defined.

(** The run of the test suite reports two changes; an answer without a
    change list would report none. *)
Lemma changes_output_counts_witness :
  (analyse accepted = (fst (analyse accepted), Val (settings builtinRule, twoChanges))
   /\ outputsOf (fst (run accepted)) = [("changes", "2")])
  /\
  (analyse (world withoutList)
   = (fst (analyse (world withoutList)), Val (settings withoutList, withoutChanges))
   /\ changes withoutChanges = None
   /\ outputsOf (fst (run (world withoutList))) = [("changes", "0")]).
Proof.
  split.
  - split; [ reflexivity | ].
    exact (proj1 (@changes_output_counts _ _ _ _ _ _ accepted _ _ _ eq_refl)).
  - split; [ reflexivity | split; [ reflexivity | ] ].
    exact (proj2 (proj2 (proj2
             (@changes_output_counts _ _ _ _ _ _ (world withoutList) _ _ _
                eq_refl))) eq_refl).
Defined.

(** An enforced breaking change ends in the error summary and the failure
    mark; the run of the test suite ends in the informational summary. *)
Lemma verdict_is_reported_witness :
  (analyse enforced = (fst (analyse enforced), Val (settings breakingEnforced, breaking))
   /\ snd (overrideConclusion (settings breakingEnforced) (conclusion breaking)
           : M Ev _) = Val Failure
   /\ snd (run enforced) = Return
   /\ exists before,
       fst (run enforced) =
       (before ++ [CoreError (createSummary enforced (changesOf breaking) 100 false);
                   CoreSetFailed "Something is wrong with your schema"])%list)
  /\
  (analyse accepted = (fst (analyse accepted), Val (settings builtinRule, twoChanges))
   /\ snd (overrideConclusion (settings builtinRule) (conclusion twoChanges)
           : M Ev _) = Val Success
   /\ snd (run accepted) = Val tt
   /\ (exists before,
        fst (run accepted) =
        (before ++ [CoreInfo (createSummary accepted (changesOf twoChanges) 100 false)])%list)
   /\ forall message, ~ In (CoreSetFailed message) (fst (run accepted))).
Proof.
  split.
  - split; [ reflexivity | split; [ reflexivity | ] ].
    exact (proj1 (@verdict_is_reported _ _ _ _ _ _ enforced _ _ _ Failure
                    eq_refl eq_refl) eq_refl).
  - split; [ reflexivity | split; [ reflexivity | ] ].
    exact (proj2 (@verdict_is_reported _ _ _ _ _ _ accepted _ _ _ Success
                    eq_refl eq_refl) eq_refl).
Defined.

(** The same breaking answer, enforced in one run and tolerated in the
    other: the conclusions differ, the outputs do not. *)
Lemma changes_output_ignores_override_witness :
  analyse enforced = (fst (analyse enforced), Val (settings breakingEnforced, breaking))
  /\ analyse tolerated
     = (fst (analyse tolerated), Val (settings breakingTolerated, breaking))
  /\ snd (run enforced) = Return
  /\ snd (run tolerated) = Val tt
  /\ outputsOf (fst (run enforced)) = outputsOf (fst (run tolerated)).
Proof.
  split; [ reflexivity | split; [ reflexivity | ] ].
  split; [ reflexivity | split; [ reflexivity | ] ].
  exact (proj2 (proj2
           (@changes_output_ignores_override _ _ _ _ _ _ enforced tolerated
              (settings breakingEnforced) (settings breakingTolerated) breaking))
           _ _ eq_refl eq_refl).
Defined.

End Scenarios.

(** ** Beyond the listed properties: the run as a whole *)

Section TraceFacts.

Variable Event : Type.

Lemma fst_bind A B (m : M Event A) (k : A -> M Event B) :
  fst (bind m k) =
  (fst m ++ match snd m with
            | Val a => fst (k a)
            | _ => []
            end)%list.
Proof.
  unfold bind. destruct (snd m); simpl; trivial; now rewrite app_nil_r.
Qed.

Lemma snd_bind A B (m : M Event A) (k : A -> M Event B) :
  snd (bind m k) =
  match snd m with
  | Val a => snd (k a)
  | Return => Return
  | Throw e => Throw e
  end.
Proof. unfold bind. now destruct (snd m). Qed.

Lemma answer_val A (r : Exn + A) (a : A) :
  snd (answer (Event := Event) r) = Val a -> r = inr a.
Proof. destruct r; simpl; intros [=]. now subst. Qed.

Lemma filter_nil_of_Forall (f : Event -> bool) (tr : list Event) :
  Forall (fun e => f e = false) tr -> filter f tr = [].
Proof.
  induction 1 as [| e tr He _ IH]; simpl; trivial. now rewrite He.
Qed.

End TraceFacts.

Section MarkedFacts.

Context {Rule Schema Hook : Type}.

Local Abbreviation Ev := (Event Rule Schema Hook).

Lemma Marked_bind A B (m : M Ev A) (k : A -> M Ev B) :
  Marked m -> (forall a, snd m = Val a -> Marked (k a)) -> Marked (bind m k).
Proof.
  unfold Marked. intros Hm Hk. rewrite snd_bind, fst_bind.
  destruct (snd m) as [a | | e] eqn:E.
  - specialize (Hk a eq_refl). destruct (snd (k a)) as [b | | e].
    + apply Forall_app. now split.
    + destruct Hk as (before & message & -> & Hin & Hb).
      exists (fst m ++ before)%list, message. rewrite app_assoc.
      split; [ reflexivity | split; [ exact Hin | ] ].
      apply Forall_app. now split.
    + apply Forall_app. now split.
  - destruct Hm as (before & message & Hm & Hin & Hb).
    exists before, message. now rewrite app_nil_r.
  - now rewrite app_nil_r.
Qed.

Lemma Marked_emit (e : Ev) : isFailed e = false -> Marked (emit e).
Proof. intros H. unfold Marked. simpl. now repeat constructor. Qed.

Lemma Marked_ret A (a : A) : Marked (ret a : M Ev A).
Proof. constructor. Qed.

Lemma Marked_throw A e : Marked (throw e : M Ev A).
Proof. constructor. Qed.

Lemma Marked_answer A (r : Exn + A) : Marked (answer r : M Ev A).
Proof. destruct r; constructor. Qed.

(** [return core.setFailed(message)]. *)
Lemma Marked_failure A message :
  In message failureMessages ->
  Marked (emit (CoreSetFailed message) ;;; (exit : M Ev A)).
Proof.
  intros Hin. unfold Marked. simpl. exists [], message. now repeat split.
Qed.

End MarkedFacts.

(** Walks through a block and checks the discipline of its returns. *)
Ltac marked :=
  unfold_core;
  repeat match goal with
    | |- Marked (bind (emit (CoreSetFailed _)) (fun _ => exit)) =>
        apply Marked_failure; simpl; tauto
    | |- Marked (bind _ _) => apply Marked_bind; [ | intros ? ? ]
    | |- Marked (answer _) => apply Marked_answer
    | |- Marked (emit _) => apply Marked_emit; reflexivity
    | |- Marked (ret _) => apply Marked_ret
    | |- Marked (throw _) => apply Marked_throw
    | |- Marked (match ?x with _ => _ end) => destruct x eqn:?
    end.

Section Pipeline.

Context {Rule Schema Hook Change Json Octokit : Type}.
Variable w : World Rule Schema Hook Change Json Octokit.

Local Abbreviation Ev := (Event Rule Schema Hook).

Lemma Marked_mapResolve (refs : list string) : Marked (mapResolve w refs).
Proof.
  rewrite mapResolve_spec. unfold Marked. simpl.
  apply Forall_forall. intros e He. apply in_map_iff in He as (r & <- & _).
  reflexivity.
Qed.

Lemma Marked_run : Marked (run w).
Proof.
  unfold run, analyse, setup, readSettings, requirePointer, resolveRules,
    compare, loadUsage, resolveTargets, loadSources, buildSchemas, invokeDiff,
    report, overrideConclusion.
  marked; try apply Marked_mapResolve; marked.
Qed.

Lemma not_failed_not_In (tr : list Ev) message :
  Forall (fun e => isFailed e = false) tr -> ~ In (CoreSetFailed message) tr.
Proof. intros H. apply (Forall_not_In _ H). discriminate. Qed.

Lemma defined_some (o : option string) (text : string) :
  Js.defined o = Some text -> o = Some text /\ text <> EmptyString.
Proof.
  destruct o as [[| c rest] |]; simpl; intros [= <-]. split; [ trivial | discriminate ].
Qed.

(** X1. The workspace guard of lines 27-31.  When the token and the job
    name were read and [GITHUB_WORKSPACE] is missing or empty, the run logs
    its three opening lines, is marked failed with the workspace message and
    returns: no other input is read into a rule, hook, load or diff call. *)
Theorem missing_workspace_stops_the_run token jobInput :
  getInput w "github-token" true = inr token ->
  getInput w "name" false = inr jobInput ->
  (GITHUB_WORKSPACE w = None \/ GITHUB_WORKSPACE w = Some EmptyString) ->
  run w =
  ([CoreInfo "GraphQL Inspector started";
    CoreInfo ("Ref: " ++ Js.show (GITHUB_SHA w));
    CoreInfo ("Commit SHA: " ++ getCurrentCommitSha w);
    CoreSetFailed
      "Failed to resolve workspace directory. GITHUB_WORKSPACE is missing"],
   Return).
Proof.
  intros Htoken Hname Hws.
  assert (Hdef : Js.defined (GITHUB_WORKSPACE w) = None)
    by (destruct Hws as [-> | ->]; reflexivity).
  rewrite run_stages. unfold setup, readSettings. unfold_core.
  rewrite Htoken, Hname, Hdef. reflexivity.
Qed.

(** X2. The failure mark.  A run that returns early has just called
    [core.setFailed], with one of the four messages of lines 30, 59, 76 and
    184, and had not called it before; a run that completes or rejects never
    called it.  So a run is marked failed at most once, as its last act, and
    exactly when it returns early. *)
Theorem failure_mark_discipline :
  (snd (run w) = Return ->
   exists before message,
     fst (run w) = (before ++ [CoreSetFailed message])%list /\
     In message failureMessages /\
     forall other, ~ In (CoreSetFailed other) before)
  /\
  (snd (run w) <> Return ->
   forall message, ~ In (CoreSetFailed message) (fst (run w))).
Proof.
  pose proof Marked_run as H. unfold Marked in H. split.
  - intros Hret. rewrite Hret in H.
    destruct H as (before & message & Hfst & Hin & Hb).
    exists before, message. split; [ exact Hfst | split; [ exact Hin | ] ].
    intros other. now apply not_failed_not_In.
  - intros Hne message. destruct (snd (run w)) as [[] | | e];
      [ | now elim Hne | ]; now apply not_failed_not_In.
Qed.

(** X3. Where accepted settings come from.  When lines 15-60 are passed,
    every setting is the answer of its input or environment variable, with
    the defaults of the source: merge mode defaults to [true] in
    [castToBoolean], the approval label to [approved-breaking-change], the
    rule list to the empty list; the workspace and the pointer are not
    empty, and the pull request is the one associated with the current
    commit. *)
Theorem accepted_settings_come_from_inputs tr s :
  setup w = (tr, Val s) ->
  ref s = GITHUB_SHA w /\
  commitSha s = getCurrentCommitSha w /\
  (GITHUB_WORKSPACE w = Some (workspace s) /\ workspace s <> EmptyString) /\
  (exists v, getInput w "experimental_merge" false = inr v /\
             useMerge s = castToBoolean w v (Some true)) /\
  (exists v, getInput w "fail-on-breaking" false = inr v /\
             failOnBreaking s = castToBoolean w v None) /\
  (exists v, getInput w "approve-label" false = inr v /\
             approveLabel s =
             if Js.truthy v then v else "approved-breaking-change") /\
  rulesList s =
    match getInputAsArray w "rules" with
    | Some l => l
    | None => []
    end /\
  getInput w "getUsage" false = inr (onUsage s) /\
  (exists token, getInput w "github-token" true = inr token /\
                 octokit s = getOctokit w token) /\
  (owner s, repo s) = context_repo w /\
  getAssociatedPullRequest w (octokit s) (commitSha s) = inr (pullRequest s) /\
  (getInput w "schema" true = inr (schemaPointer s) /\
   schemaPointer s <> EmptyString).
Proof.
  intros Hs.
  assert (H : snd (setup w) = Val s) by now rewrite Hs.
  unfold setup in H.
  apply bind_val_inv in H as (s0 & H & Hp & _).
  apply requirePointer_val in Hp as (-> & Htruthy & _).
  unfold readSettings in H. unfold_core.
  apply bind_val_inv in H as (? & _ & H & _).
  apply bind_val_inv in H as (? & _ & H & _).
  apply bind_val_inv in H as (? & _ & H & _).
  apply bind_val_inv in H as (token & Htoken & H & _).
  apply answer_val in Htoken.
  apply bind_val_inv in H as (jobInput & _ & H & _).
  destruct (Js.defined (GITHUB_WORKSPACE w)) as [ws |] eqn:Hws;
    [ | rewrite snd_bind in H; discriminate ].
  apply defined_some in Hws as (Hws & Hne).
  apply bind_val_inv in H as (vm & Hvm & H & _). apply answer_val in Hvm.
  apply bind_val_inv in H as (vf & Hvf & H & _). apply answer_val in Hvf.
  apply bind_val_inv in H as (vl & Hvl & H & _). apply answer_val in Hvl.
  apply bind_val_inv in H as (vu & Hvu & H & _). apply answer_val in Hvu.
  destruct (context_repo w) as [o r] eqn:Hrepo.
  apply bind_val_inv in H as (pr & Hpr & H & _). apply answer_val in Hpr.
  apply bind_val_inv in H as (? & _ & H & _).
  apply bind_val_inv in H as (ptr & Hptr & H & _). apply answer_val in Hptr.
  simpl in H. injection H as <-. simpl in *.
  repeat split; trivial; eauto.
  intros ->. discriminate.
Qed.

Lemma callsOf_app (tr tr' : list Ev) :
  callsOf (tr ++ tr') = (callsOf tr ++ callsOf tr')%list.
Proof. apply filter_app. Qed.

Lemma callsOf_logs (tr : list Ev) :
  Forall (fun e => isLog e = true) tr -> callsOf tr = [].
Proof.
  intros H. apply filter_nil_of_Forall. eapply Forall_impl; [ | exact H ].
  intros [] He; trivial; discriminate.
Qed.

Lemma callsOf_silent A (m : M Ev A) :
  Emits (fun e => isCall e = false) m -> callsOf (fst m) = [].
Proof. intros H. now apply filter_nil_of_Forall. Qed.

Lemma loadUsage_calls (s : Settings Octokit) :
  callsOf (fst (loadUsage w s)) = [] \/
  callsOf (fst (loadUsage w s)) = [RequireCall (onUsage s)].
Proof.
  unfold loadUsage. destruct (Js.truthy (onUsage s)); [ right | now left ].
  rewrite fst_bind. cbn [emit fst snd]. rewrite fst_bind.
  destruct (require w (onUsage s)) as [e | [hook |]]; reflexivity.
Qed.

Lemma resolveTargets_calls (s : Settings Octokit) :
  callsOf (fst (resolveTargets s : M Ev _)) = [].
Proof. apply callsOf_silent. unfold resolveTargets. emits. Qed.

Lemma loadSources_calls (s : Settings Octokit) t :
  callsOf (fst (loadSources w s t)) =
  [LoadFileCall (oldLoad t); LoadFileCall (newLoad t)].
Proof.
  unfold loadSources. unfold_core.
  rewrite fst_bind. cbn [emit fst snd]. rewrite fst_bind. cbn [emit fst snd].
  rewrite fst_bind.
  destruct (fileLoader w (octokit s) (owner s) (repo s) (oldLoad t));
    [ reflexivity | ].
  cbn [answer ret throw fst snd]. rewrite fst_bind.
  destruct (fileLoader w (octokit s) (owner s) (repo s) (newLoad t));
    reflexivity.
Qed.

Lemma buildSchemas_calls t oldFile newFile :
  callsOf (fst (buildSchemas w t oldFile newFile)) = [].
Proof. apply callsOf_silent. unfold buildSchemas. emits. Qed.

Lemma invokeDiff_calls b (rules : list Rule) config :
  callsOf (fst (invokeDiff w b rules config)) =
  [DiffCall (diffArgs b rules config)].
Proof.
  unfold invokeDiff. unfold_core.
  rewrite fst_bind. cbn [emit fst snd]. rewrite fst_bind. cbn [emit fst snd].
  destruct (diff w (diffArgs b rules config)); reflexivity.
Qed.

Lemma report_calls (s : Settings Octokit) action :
  callsOf (fst (report w s action)) = [].
Proof. apply callsOf_silent. unfold report, overrideConclusion. emits. Qed.

(** The calls of the comparison: the loads, then the diff engine. *)
Lemma compare_rest_calls (s : Settings Octokit) rules config :
  let rest :=
    callsOf (fst (t <- resolveTargets s ;;
                  files <- loadSources w s t ;;
                  b <- buildSchemas w t (fst files) (snd files) ;;
                  invokeDiff w b rules config)) in
  exists t,
    rest = [LoadFileCall (oldLoad t); LoadFileCall (newLoad t)] \/
    exists args,
      rest = [LoadFileCall (oldLoad t); LoadFileCall (newLoad t); DiffCall args].
Proof.
  cbv zeta. destruct (resolveTargets_total (Rule := Rule) (Schema := Schema)
              (Hook := Hook) s) as (trt & t & Ht & _).
  exists t. rewrite fst_bind, callsOf_app, resolveTargets_calls, Ht.
  cbn [snd app]. rewrite fst_bind, callsOf_app, loadSources_calls.
  destruct (snd (loadSources w s t)) as [files | | e];
    [ | left; reflexivity | left; reflexivity ].
  rewrite fst_bind, callsOf_app, buildSchemas_calls.
  destruct (snd (buildSchemas w t (fst files) (snd files))) as [b | | e];
    [ | left; reflexivity | left; reflexivity ].
  right. exists (diffArgs b rules config).
  now rewrite invokeDiff_calls.
Qed.

(** X4. The calls of a run.  Whatever the world answers, the calls that
    leave the action are, in this order: at most one [require]; then either
    nothing, or the two file loads (base side first), or the two file loads
    followed by one call of the diff engine.  So the diff engine is never
    called without both loads having been requested, never twice, and no
    file is loaded after it. *)
Theorem call_protocol :
  exists usage rest,
    callsOf (fst (run w)) = (usage ++ rest)%list /\
    (usage = [] \/ exists path, usage = [RequireCall path]) /\
    (rest = [] \/
     exists t,
       rest = [LoadFileCall (oldLoad t); LoadFileCall (newLoad t)] \/
       exists args,
         rest = [LoadFileCall (oldLoad t); LoadFileCall (newLoad t);
                 DiffCall args]).
Proof.
  rewrite run_stages, fst_bind, callsOf_app.
  rewrite (callsOf_logs (setup_logs w)). cbn [app].
  destruct (snd (setup w)) as [s | | e];
    [ | exists [], []; auto | exists [], []; auto ].
  rewrite fst_bind, callsOf_app.
  rewrite (callsOf_logs (resolveRules_logs w s)). cbn [app].
  destruct (snd (resolveRules w s)) as [rules | | e];
    [ | exists [], []; auto | exists [], []; auto ].
  rewrite fst_bind, callsOf_app.
  assert (Hreport :
    callsOf match snd (compare w s rules) with
            | Val a => fst (report w s a)
            | _ => []
            end = []).
  { destruct (snd (compare w s rules)); trivial. apply report_calls. }
  rewrite Hreport, app_nil_r.
  unfold compare. rewrite fst_bind, callsOf_app.
  exists (callsOf (fst (loadUsage w s))). eexists. split; [ reflexivity | ].
  split.
  - destruct (loadUsage_calls s) as [-> | ->]; eauto.
  - destruct (snd (loadUsage w s)) as [config | | e]; [ | now left .. ].
    right. apply compare_rest_calls.
Qed.

(** What a built pair remembers of the targets. *)
Lemma buildSchemas_val t oldFile newFile b :
  snd (buildSchemas w t oldFile newFile) = Val b ->
  schemaPath t = Some (built_path b) /\
  source_name (sources_old (built_sources b))
  = schemaRef t ++ ":" ++ built_path b /\
  source_name (sources_new (built_sources b)) = built_path b.
Proof.
  unfold buildSchemas. unfold_core.
  destruct (schemaPath t) as [path |]; [ | discriminate ].
  intros H. apply bind_val_inv in H as (b0 & H & Hb & _).
  rewrite snd_bind in Hb. cbn in Hb. injection Hb as <-.
  destruct (isIntrospection w path).
  - apply bind_val_inv in H as (? & _ & H & _).
    apply bind_val_inv in H as (? & _ & H & _).
    apply bind_val_inv in H as (? & _ & H & _).
    apply bind_val_inv in H as (? & _ & H & _).
    cbn in H. injection H as <-. auto.
  - cbv zeta in H.
    apply bind_val_inv in H as (? & _ & H & _).
    apply bind_val_inv in H as (? & _ & H & _).
    cbn in H. injection H as <-. auto.
Qed.

(** What the diff engine is given, whenever it is called. *)
Lemma compare_diff_args (s : Settings Octokit) rules tru config :
  loadUsage w s = (tru, Val config) ->
  forall args,
    In (DiffCall args) (fst (compare w s rules)) ->
    diff_rules args = rules /\
    diff_config args = config /\
    snd (splitPointer (schemaPointer s)) = Some (diff_path args).
Proof.
  intros Hu.
  assert (Hall :
    Emits (fun e : Ev =>
             forall args, e = DiffCall args ->
                          diff_rules args = rules /\
                          diff_config args = config /\
                          snd (splitPointer (schemaPointer s))
                          = Some (diff_path args))
          (compare w s rules)).
  { unfold compare. apply Emits_bind; [ unfold loadUsage; emits | ].
    intros config' Hc. rewrite Hu in Hc. injection Hc as <-.
    apply Emits_bind; [ unfold resolveTargets; emits | ].
    intros t Ht.
    destruct (resolveTargets_total (Rule := Rule) (Schema := Schema)
                (Hook := Hook) s) as (trt & t' & Ht' & Hpath).
    rewrite Ht' in Ht. injection Ht as ->.
    apply Emits_bind; [ unfold loadSources; emits | ].
    intros files _.
    apply Emits_bind; [ unfold buildSchemas; emits | ].
    intros b Hb. apply buildSchemas_val in Hb as (Hb & _).
    unfold invokeDiff. unfold_core.
    apply Emits_bind; [ emits | intros _ _ ].
    apply Emits_bind; [ | intros _ _; emits ].
    apply Emits_emit. intros args [= <-].
    unfold diffArgs. cbn [diff_rules diff_config diff_path].
    split; [ reflexivity | split; [ reflexivity | congruence ] ]. }
  intros args Hin. unfold Emits in Hall. rewrite Forall_forall in Hall.
  now apply (Hall _ Hin).
Qed.

(** X5. A loaded usage hook reaches the diff engine.  When a hook path is
    configured and [require] answers with a truthy export, the hook stage
    falls through with [{ checkUsage }] holding that export, and every call
    of the diff engine in the comparison carries exactly this
    configuration. *)
Theorem loaded_hook_is_passed_on s rules hook :
  Js.truthy (onUsage s) = true ->
  require w (onUsage s) = inr (Some hook) ->
  loadUsage w s =
    ([RequireCall (onUsage s)], Val (Some {| checkUsage := hook |})) /\
  forall args,
    In (DiffCall args) (fst (compare w s rules)) ->
    diff_config args = Some {| checkUsage := hook |}.
Proof.
  intros Hon Hreq.
  assert (Hu : loadUsage w s =
               ([RequireCall (onUsage s)], Val (Some {| checkUsage := hook |}))).
  { unfold loadUsage. rewrite Hon. unfold bind. cbn. now rewrite Hreq. }
  split; [ exact Hu | ].
  intros args Hin.
  exact (proj1 (proj2 (@compare_diff_args s rules _ _ Hu args Hin))).
Qed.

(** X6. Without a hook path nothing is required.  When the [getUsage]
    input is empty, the comparison never calls [require], and the diff
    engine, if it is called, gets no configuration. *)
Theorem no_hook_path_no_require s rules :
  onUsage s = EmptyString ->
  (forall path, ~ In (RequireCall path) (fst (compare w s rules))) /\
  forall args,
    In (DiffCall args) (fst (compare w s rules)) -> diff_config args = None.
Proof.
  intros Hoff.
  assert (Hu : loadUsage w s = ([], Val None)).
  { unfold loadUsage. now rewrite Hoff. }
  split.
  - intros path.
    apply Forall_not_In with (P := fun e : Ev => forall p, e <> RequireCall p);
      [ | now intros H; apply (H path) ].
    change (Emits (fun e : Ev => forall p, e <> RequireCall p)
                  (compare w s rules)).
    unfold compare. apply Emits_bind; [ rewrite Hu; constructor | intros ? _ ].
    unfold resolveTargets, loadSources, buildSchemas, invokeDiff. emits.
  - intros args Hin.
    exact (proj1 (proj2 (@compare_diff_args s rules _ _ Hu args Hin))).
Qed.

(** X7. What the diff engine is given.  In every run that passes
    lines 15-60, each call of the diff engine carries the rules that the
    references of the [rules] input resolve to, all of them and in the order
    of the input, and as its path the second segment of the schema
    pointer. *)
Theorem diff_gets_the_resolved_rules tr s :
  setup w = (tr, Val s) ->
  forall args,
    In (DiffCall args) (fst (run w)) ->
    map Some (diff_rules args) = map (resolveRule w) (rulesList s) /\
    snd (splitPointer (schemaPointer s)) = Some (diff_path args).
Proof.
  intros Hs args Hin.
  assert (Hlog : Forall (fun e : Ev => isLog e = true) tr).
  { pose proof (setup_logs w) as L. unfold Emits in L. now rewrite Hs in L. }
  rewrite run_stages, (bind_val _ Hs) in Hin. cbn [fst] in Hin.
  apply in_app_or in Hin as [Hin | Hin];
    [ now elim (logs_not_diff args Hlog) | ].
  rewrite fst_bind in Hin. apply in_app_or in Hin as [Hin | Hin].
  { pose proof (resolveRules_logs w s) as L. unfold Emits in L.
    now elim (logs_not_diff args L). }
  destruct (snd (resolveRules w s)) as [rules | | e] eqn:Hr; try easy.
  apply resolveRules_val in Hr as (_ & Hmap).
  rewrite fst_bind in Hin. apply in_app_or in Hin as [Hin | Hin].
  - destruct (snd (loadUsage w s)) as [config | | e] eqn:Hu.
    + assert (Hu' : loadUsage w s = (fst (loadUsage w s), Val config))
        by (rewrite <- Hu; now destruct (loadUsage w s)).
      destruct (@compare_diff_args s rules _ _ Hu' args Hin)
        as (Hrules & _ & Hpath).
      rewrite Hrules. now split.
    + exfalso. revert Hin. unfold compare. rewrite fst_bind, Hu, app_nil_r.
      apply Forall_not_In with (P := fun e : Ev => forall a, e <> DiffCall a);
        [ | now intros H; apply (H args) ].
      change (Emits (fun e : Ev => forall a, e <> DiffCall a) (loadUsage w s)).
      unfold loadUsage. emits.
    + exfalso. revert Hin. unfold compare. rewrite fst_bind, Hu, app_nil_r.
      apply Forall_not_In with (P := fun e : Ev => forall a, e <> DiffCall a);
        [ | now intros H; apply (H args) ].
      change (Emits (fun e : Ev => forall a, e <> DiffCall a) (loadUsage w s)).
      unfold loadUsage. emits.
  - exfalso. destruct (snd (compare w s rules)) as [action | | e]; try easy.
    assert (Hc : In (DiffCall args) (callsOf (fst (report w s action)))).
    { apply filter_In. now split. }
    now rewrite report_calls in Hc.
Qed.

(** The comparison once the hook stage and the targets are known. *)
Lemma compare_unfold (s : Settings Octokit) rules tru config trt t :
  loadUsage w s = (tru, Val config) ->
  resolveTargets s = (trt, Val t) ->
  let rest :=
    files <- loadSources w s t ;;
    b <- buildSchemas w t (fst files) (snd files) ;;
    invokeDiff w b rules config in
  compare w s rules = ((tru ++ trt ++ fst rest)%list, snd rest).
Proof.
  intros Hu Ht. cbv zeta. unfold compare.
  rewrite (bind_val _ Hu), (bind_val _ Ht). reflexivity.
Qed.


(** X9. A failed build.  [buildSchemas] emits nothing when it fails and
    passes the exception on unchanged, the base side first: for a [.json]
    path the JSON parser and then [buildClientSchema] on the old text, then
    on the new text; otherwise [produceSchema] on the old source, then on the
    new one.  A comparison whose build fails rejects with that exception
    after [Got both sources], without calling the diff engine. *)
Theorem failed_build_rejects t oldFile newFile path e :
  schemaPath t = Some path ->
  let oldSource := {| source_body := oldFile;
                      source_name := schemaRef t ++ ":" ++ path |} in
  let newSource := {| source_body := newFile; source_name := path |} in
  (isIntrospection w path = true ->
   (JSON_parse w oldFile = inl e \/
    (exists json, JSON_parse w oldFile = inr json /\
                  buildClientSchema w json = inl e) \/
    (exists json schema,
        JSON_parse w oldFile = inr json /\
        buildClientSchema w json = inr schema /\
        (JSON_parse w newFile = inl e \/
         exists json', JSON_parse w newFile = inr json' /\
                       buildClientSchema w json' = inl e))) ->
   buildSchemas w t oldFile newFile = ([], Throw e))
  /\
  (isIntrospection w path = false ->
   (produceSchema w oldSource = inl e \/
    (exists schema, produceSchema w oldSource = inr schema) /\
    produceSchema w newSource = inl e) ->
   buildSchemas w t oldFile newFile = ([], Throw e))
  /\
  (forall (s : Settings Octokit) rules tru config trt,
      loadUsage w s = (tru, Val config) ->
      resolveTargets s = (trt, Val t) ->
      fileLoader w (octokit s) (owner s) (repo s) (oldLoad t) = inr oldFile ->
      fileLoader w (octokit s) (owner s) (repo s) (newLoad t) = inr newFile ->
      buildSchemas w t oldFile newFile = ([], Throw e) ->
      compare w s rules =
      ((tru ++ trt ++ [LoadFileCall (oldLoad t); LoadFileCall (newLoad t);
                       CoreInfo "Got both sources"])%list, Throw e)).
Proof.
  intros Hpath. cbv zeta. split; [ | split ].
  - intros Hjson Hfail. unfold buildSchemas. rewrite Hpath, Hjson.
    destruct Hfail as [Ho | [(j & Ho & Hb) | (j & sch & Ho & Hb & Hn)]].
    + rewrite Ho. reflexivity.
    + rewrite Ho. cbn [answer]. rewrite bind_ret_l, Hb. reflexivity.
    + rewrite Ho. cbn [answer]. rewrite bind_ret_l, Hb.
      cbn [answer]. rewrite bind_ret_l.
      destruct Hn as [Hn | (j' & Hn & Hb')].
      * rewrite Hn. reflexivity.
      * rewrite Hn. cbn [answer]. rewrite bind_ret_l, Hb'. reflexivity.
  - intros Hsdl Hfail. unfold buildSchemas. rewrite Hpath, Hsdl.
    cbv zeta. cbn [sources_old sources_new].
    destruct Hfail as [Ho | [(sch & Ho) Hn]].
    + rewrite Ho. reflexivity.
    + rewrite Ho, Hn. reflexivity.
  - intros s rules tru config trt Hu Ht Hold Hnew Hbuild.
    rewrite (@compare_unfold s rules _ _ _ _ Hu Ht).
    unfold loadSources. unfold_core. rewrite Hold, Hnew.
    unfold bind. cbn. rewrite Hbuild. reflexivity.
Qed.

Lemma remainder_without_colon (text : string) :
  Spec.hasColon text = false -> Spec.remainderAfterFirstColon text = None.
Proof.
  induction text as [| c rest IH]; simpl; trivial.
  destruct (Ascii.eqb c ":"); simpl; [ discriminate | exact IH ].
Qed.

(** X10. A pointer without a colon.  Its path is undefined, the guard of
    lines 57-60 lets it through, and once both loads have succeeded line 124
    calls [toLowerCase] on the undefined path: the comparison rejects with a
    type error after [Got both sources], and the diff engine is not
    called. *)
Theorem pointer_without_colon_ends_in_type_error
        s rules tru config trt t oldFile newFile :
  Spec.hasColon (schemaPointer s) = false ->
  loadUsage w s = (tru, Val config) ->
  resolveTargets s = (trt, Val t) ->
  fileLoader w (octokit s) (owner s) (repo s) (oldLoad t) = inr oldFile ->
  fileLoader w (octokit s) (owner s) (repo s) (newLoad t) = inr newFile ->
  load_path (oldLoad t) = None /\
  load_path (newLoad t) = None /\
  compare w s rules =
  ((tru ++ trt ++ [LoadFileCall (oldLoad t); LoadFileCall (newLoad t);
                   CoreInfo "Got both sources"])%list,
   Throw "TypeError: Cannot read properties of undefined (reading 'toLowerCase')").
Proof.
  intros Hno Hu Ht Hold Hnew.
  assert (Hpath : schemaPath t = None).
  { destruct (resolveTargets_total (Rule := Rule) (Schema := Schema)
                (Hook := Hook) s) as (trt' & t' & Ht' & Hp).
    rewrite Ht in Ht'. injection Ht' as _ <-. rewrite Hp.
    unfold splitPointer. rewrite split_colon.
    now rewrite (remainder_without_colon _ Hno). }
  split; [ exact Hpath | split; [ exact Hpath | ] ].
  rewrite (@compare_unfold s rules _ _ _ _ Hu Ht).
  unfold loadSources. unfold_core. rewrite Hold, Hnew.
  unfold bind. cbn. unfold buildSchemas. rewrite Hpath. reflexivity.
Qed.

Lemma outputsOf_none (tr : list Ev) :
  Forall (fun e => isOutput e = false) tr -> outputsOf tr = [].
Proof.
  induction 1 as [| e tr He _ IH]; simpl; trivial.
  destruct e; simpl in *; trivial; discriminate.
Qed.

(** Nothing is set as an output before the diff engine has answered. *)
Lemma analyse_no_outputs : Emits (fun e : Ev => isOutput e = false) (analyse w).
Proof.
  unfold analyse. apply Emits_bind.
  - eapply Forall_impl; [ | apply (setup_logs w) ].
    intros [] He; trivial; discriminate.
  - intros s _. apply Emits_bind.
    + eapply Forall_impl; [ | apply (resolveRules_logs w s) ].
      intros [] He; trivial; discriminate.
    + intros rules _. apply Emits_bind.
      * eapply Forall_impl; [ | apply (compare_quiet w s rules) ].
        intros [] He; trivial; discriminate.
      * intros. constructor.
Qed.

(** How the verdict stage ends, by the conclusion that survives. *)
Lemma report_ends (s : Settings Octokit) (action : DiffResult Change) :
  (snd (overrideConclusion s (conclusion action) : M Ev _) = Val Success /\
   snd (report w s action) = Val tt)
  \/
  (snd (overrideConclusion s (conclusion action) : M Ev _) = Val Failure /\
   snd (report w s action) = Return).
Proof.
  destruct (overrideConclusion_cases (Rule := Rule) (Schema := Schema)
              (Hook := Hook) s (conclusion action))
    as [(E & _) | (E & _)].
  - left. rewrite (report_trace w s action (final := Success))
      by now rewrite E.
    now rewrite E.
  - destruct (conclusion action) eqn:Ec; [ left | right ].
    + rewrite (report_trace w s action (final := Success))
        by now rewrite Ec, E.
      now rewrite E.
    + rewrite (report_trace w s action (final := Failure))
        by now rewrite Ec, E.
      now rewrite E.
Qed.

(** X11. How a run ends.  It completes exactly when the diff engine
    answered and the conclusion that survives the override is [Success]; it
    returns early exactly when a guard before the diff engine returned or
    that conclusion is [Failure]; it rejects exactly when something before
    the verdict threw, and then it has set no output.  The verdict stage
    itself never throws. *)
Theorem run_ends_by_its_analysis :
  (snd (run w) = Val tt <->
   exists tr s action,
     analyse w = (tr, Val (s, action)) /\
     snd (overrideConclusion s (conclusion action) : M Ev _) = Val Success)
  /\
  (snd (run w) = Return <->
   snd (analyse w) = Return \/
   exists tr s action,
     analyse w = (tr, Val (s, action)) /\
     snd (overrideConclusion s (conclusion action) : M Ev _) = Val Failure)
  /\
  (forall e, snd (run w) = Throw e <-> snd (analyse w) = Throw e)
  /\
  (forall e, snd (run w) = Throw e -> outputsOf (fst (run w)) = []).
Proof.
  pose proof analyse_no_outputs as Hout. unfold Emits in Hout.
  unfold run. rewrite fst_bind, snd_bind.
  destruct (analyse w) as [tr [[s action] | | e]]; cbn [fst snd] in *.
  - destruct (report_ends s action) as [[Hf Hr] | [Hf Hr]]; rewrite Hr.
    + split; [ | split; [ | split ] ].
      * split; [ intros _; now exists tr, s, action | trivial ].
      * split; [ discriminate | ].
        intros [H | (tr' & s' & a' & [= <- <- <-] & H)]; [ discriminate | ].
        rewrite Hf in H. discriminate.
      * intros e. split; discriminate.
      * discriminate.
    + split; [ | split; [ | split ] ].
      * split; [ discriminate | ].
        intros (tr' & s' & a' & [= <- <- <-] & H).
        rewrite Hf in H. discriminate.
      * split; [ intros _; right; now exists tr, s, action | trivial ].
      * intros e. split; discriminate.
      * discriminate.
  - split; [ | split; [ | split ] ].
    + split; [ discriminate | intros (? & ? & ? & [=] & _) ].
    + split; auto.
    + intros e. split; discriminate.
    + discriminate.
  - split; [ | split; [ | split ] ].
    + split; [ discriminate | intros (? & ? & ? & [=] & _) ].
    + split; [ discriminate | ].
      intros [H | (? & ? & ? & [=] & _)]. discriminate.
    + intros e'. split; intros [= ->]; reflexivity.
    + intros e' _. rewrite app_nil_r. now apply outputsOf_none.
Qed.

(** X12. Merge mode without a known base.  With merge mode enabled and an
    open pull request whose base is missing or has an empty ref, the head
    side still moves to the merge reference without workspace, but the base
    side stays on the ref of the pointer, and only the first of the two
    merge-mode lines is logged. *)
Theorem merge_mode_without_base_ref (s : Settings Octokit) pr :
  useMerge s = true -> pullRequest s = Some pr -> state pr = "open" ->
  (base pr = None \/ exists b, base pr = Some b /\ base_ref b = EmptyString) ->
  exists t,
    (resolveTargets s : M Ev _) =
    ([CoreInfo ("EXPERIMENTAL - Using Pull Request "
                  ++ ("refs/pull/" ++ Js.ofZ (number pr) ++ "/merge"))],
     Val t) /\
    oldLoad t =
      {| load_ref := Some (fst (splitPointer (schemaPointer s)));
         load_path := snd (splitPointer (schemaPointer s));
         load_workspace := None |} /\
    newLoad t =
      {| load_ref := Some ("refs/pull/" ++ Js.ofZ (number pr) ++ "/merge");
         load_path := snd (splitPointer (schemaPointer s));
         load_workspace := None |}.
Proof.
  intros Hm Hpr Hopen Hbase. unfold resolveTargets.
  destruct (splitPointer (schemaPointer s)) as [pref ppath].
  rewrite Hm, Hpr, Hopen. cbn [String.eqb]. rewrite !Ascii.eqb_refl.
  assert (Hnone : Js.defined (option_map base_ref (base pr)) = None).
  { destruct Hbase as [-> | (b & -> & Hb)]; [ reflexivity | ].
    cbn. now rewrite Hb. }
  rewrite Hnone. eexists. split; [ reflexivity | split; reflexivity ].
Qed.

Lemma pointer_rejoin (pointer rest : string) :
  Spec.remainderAfterFirstColon pointer = Some rest ->
  Spec.textBeforeFirstColon pointer ++ ":" ++ rest = pointer.
Proof.
  induction pointer as [| c tail IH]; simpl; [ discriminate | ].
  destruct (Ascii.eqb_spec c ":") as [-> | _].
  - intros [= ->]. reflexivity.
  - intros H. simpl. f_equal. exact (IH H).
Qed.

(** X13. The name of the old source.  When merge mode does not apply
    (disabled, no pull request, or a pull request that is not open) and the
    pointer has exactly one colon, a successful build names the old source
    by the pointer itself, as it was configured, and the new source by the
    text after the colon. *)
Theorem old_source_is_named_by_the_pointer (s : Settings Octokit)
        t oldFile newFile b rest :
  (useMerge s = false \/ pullRequest s = None \/
   exists pr, pullRequest s = Some pr /\ state pr <> "open") ->
  Spec.remainderAfterFirstColon (schemaPointer s) = Some rest ->
  Spec.hasColon rest = false ->
  snd (resolveTargets s : M Ev _) = Val t ->
  snd (buildSchemas w t oldFile newFile) = Val b ->
  source_name (sources_old (built_sources b)) = schemaPointer s /\
  source_name (sources_new (built_sources b)) = rest.
Proof.
  intros Hoff Hrest Hno Ht Hb.
  apply buildSchemas_val in Hb as (Hpath & Hold & Hnew).
  assert (Hsplit : splitPointer (schemaPointer s)
                   = (Spec.textBeforeFirstColon (schemaPointer s), Some rest)).
  { unfold splitPointer. rewrite split_colon, Hrest. cbn [hd nth_error].
    rewrite split_colon. cbn [nth_error].
    now rewrite (textBeforeFirstColon_all _ Hno). }
  assert (Hkeep : schemaRef t = Spec.textBeforeFirstColon (schemaPointer s)
                  /\ schemaPath t = Some rest).
  { revert Ht. unfold resolveTargets. rewrite Hsplit.
    destruct Hoff as [Hm | [Hpr | (pr & Hpr & Hst)]].
    - rewrite Hm. intros [= <-]. now split.
    - rewrite Hpr. destruct (useMerge s); intros [= <-]; now split.
    - rewrite Hpr. apply String.eqb_neq in Hst. rewrite Hst.
      destruct (useMerge s); intros [= <-]; now split. }
  destruct Hkeep as (Href & Hp). rewrite Hp in Hpath.
  injection Hpath as Hpath.
  rewrite Hold, Hnew, Href, <- Hpath. split; [ | reflexivity ].
  now apply pointer_rejoin.
Qed.

End Pipeline.

(** ** The run as a whole, on the scenarios *)

Module MoreScenarios.

Import Fixture Variants.

Local Abbreviation Ev := (Event string string unit).
Local Abbreviation accepted := (world builtinRule).
Local Abbreviation rejected := (world unknownRule).
Local Abbreviation suiteRules := ["suppressRemovalOfDeprecatedField"].

(** Without the workspace variable, and with an empty one, the run stops
    at the guard. *)
Lemma missing_workspace_stops_the_run_witness :
  (getInput noWorkspace "github-token" true = inr "MOCK_GITHUB_TOKEN" /\
   getInput noWorkspace "name" false = inr EmptyString /\
   GITHUB_WORKSPACE noWorkspace = None /\
   run noWorkspace =
   ([CoreInfo "GraphQL Inspector started"; CoreInfo "Ref: 0123abc";
     CoreInfo "Commit SHA: 0123abc";
     CoreSetFailed
       "Failed to resolve workspace directory. GITHUB_WORKSPACE is missing"],
    Return))
  /\
  (GITHUB_WORKSPACE emptyWorkspace = Some EmptyString /\
   run emptyWorkspace =
   ([CoreInfo "GraphQL Inspector started"; CoreInfo "Ref: 0123abc";
     CoreInfo "Commit SHA: 0123abc";
     CoreSetFailed
       "Failed to resolve workspace directory. GITHUB_WORKSPACE is missing"],
    Return)).
Proof.
  split.
  - split; [ reflexivity | split; [ reflexivity | split; [ reflexivity | ] ] ].
    exact (@missing_workspace_stops_the_run _ _ _ _ _ _ noWorkspace
             "MOCK_GITHUB_TOKEN" EmptyString eq_refl eq_refl
             (or_introl eq_refl)).
  - split; [ reflexivity | ].
    exact (@missing_workspace_stops_the_run _ _ _ _ _ _ emptyWorkspace
             "MOCK_GITHUB_TOKEN" EmptyString eq_refl eq_refl
             (or_intror eq_refl)).
Defined.

(** The run with an unknown rule returns right after its failure mark; the
    run of the test suite completes and carries none. *)
Lemma failure_mark_discipline_witness :
  (snd (run rejected) = Return /\
   exists before message,
     fst (run rejected) = (before ++ [CoreSetFailed message])%list /\
     In message failureMessages /\
     forall other, ~ In (CoreSetFailed other) before)
  /\
  (snd (run accepted) <> Return /\
   forall message, ~ In (CoreSetFailed message) (fst (run accepted))).
Proof.
  split.
  - split; [ reflexivity | ].
    exact (proj1 (@failure_mark_discipline _ _ _ _ _ _ rejected) eq_refl).
  - assert (H : snd (run accepted) <> Return) by discriminate.
    split; [ exact H | ].
    exact (proj2 (@failure_mark_discipline _ _ _ _ _ _ accepted) H).
Defined.

(** The settings of the test suite's run: merge mode on by default, the
    default label, the rule of the input. *)
Lemma accepted_settings_come_from_inputs_witness :
  setup accepted = (fst (setup accepted), Val (settings builtinRule)) /\
  useMerge (settings builtinRule) = true /\
  approveLabel (settings builtinRule) = "approved-breaking-change" /\
  (exists v, getInput accepted "experimental_merge" false = inr v /\
             useMerge (settings builtinRule)
             = castToBoolean accepted v (Some true)) /\
  (exists v, getInput accepted "approve-label" false = inr v /\
             approveLabel (settings builtinRule) =
             if Js.truthy v then v else "approved-breaking-change") /\
  getInput accepted "schema" true = inr "master:schema.graphql".
Proof.
  destruct (@accepted_settings_come_from_inputs _ _ _ _ _ _ accepted _
              (settings builtinRule) eq_refl)
    as (_ & _ & _ & Hm & _ & Hl & _ & _ & _ & _ & _ & Hp & _).
  split; [ reflexivity | split; [ reflexivity | split; [ reflexivity | ] ] ].
  split; [ exact Hm | split; [ exact Hl | exact Hp ] ].
Defined.

(** The hook of [./usage.js] is loaded and handed to the diff engine. *)
Lemma loaded_hook_is_passed_on_witness :
  Js.truthy (onUsage (settings hooked)) = true /\
  require (world hooked) (onUsage (settings hooked)) = inr (Some tt) /\
  loadUsage (world hooked) (settings hooked) =
    ([RequireCall "./usage.js"], Val (Some {| checkUsage := tt |})) /\
  forall args,
    In (DiffCall args) (fst (compare (world hooked) (settings hooked) suiteRules)) ->
    diff_config args = Some {| checkUsage := tt |}.
Proof.
  split; [ reflexivity | split; [ reflexivity | ] ].
  exact (@loaded_hook_is_passed_on _ _ _ _ _ _ (world hooked)
           (settings hooked) suiteRules tt eq_refl eq_refl).
Defined.

(** The test suite configures no hook: nothing is required. *)
Lemma no_hook_path_no_require_witness :
  onUsage (settings builtinRule) = EmptyString /\
  (forall path,
      ~ In (RequireCall path)
           (fst (compare accepted (settings builtinRule) suiteRules))) /\
  forall args,
    In (DiffCall args) (fst (compare accepted (settings builtinRule) suiteRules)) ->
    diff_config args = None.
Proof.
  split; [ reflexivity | ].
  exact (@no_hook_path_no_require _ _ _ _ _ _ accepted
           (settings builtinRule) suiteRules eq_refl).
Defined.

(** The diff call of the test suite's run carries the rule of the input and
    the path of the pointer. *)
Lemma diff_gets_the_resolved_rules_witness :
  setup accepted = (fst (setup accepted), Val (settings builtinRule)) /\
  In (DiffCall suiteDiff) (fst (run accepted)) /\
  map Some (diff_rules suiteDiff)
  = map (resolveRule accepted) (rulesList (settings builtinRule)) /\
  snd (splitPointer (schemaPointer (settings builtinRule)))
  = Some (diff_path suiteDiff).
Proof.
  assert (Hin : In (DiffCall suiteDiff) (fst (run accepted)))
    by (cbv; tauto).
  split; [ reflexivity | split; [ exact Hin | ] ].
  exact (@diff_gets_the_resolved_rules _ _ _ _ _ _ accepted _
           (settings builtinRule) eq_refl suiteDiff Hin).
Defined.


(** The head text does not parse: the build fails with the parser's
    message, and so does the comparison. *)
Lemma failed_build_rejects_witness :
  schemaPath suiteTargets = Some "schema.graphql" /\
  isIntrospection buildFailure "schema.graphql" = false /\
  produceSchema buildFailure
    {| source_body := newText; source_name := "schema.graphql" |}
  = inl "Syntax Error: Unexpected Name" /\
  buildSchemas buildFailure suiteTargets oldText newText
  = ([], Throw "Syntax Error: Unexpected Name") /\
  compare buildFailure (settings builtinRule) suiteRules =
  (([] ++ fst (resolveTargets (settings builtinRule) : M Ev _)
       ++ [LoadFileCall (oldLoad suiteTargets);
           LoadFileCall (newLoad suiteTargets);
           CoreInfo "Got both sources"])%list,
   Throw "Syntax Error: Unexpected Name").
Proof.
  destruct (@failed_build_rejects _ _ _ _ _ _ buildFailure suiteTargets
              oldText newText "schema.graphql"
              "Syntax Error: Unexpected Name" eq_refl)
    as (_ & Hsdl & Hrun).
  assert (Hbuild : buildSchemas buildFailure suiteTargets oldText newText
                   = ([], Throw "Syntax Error: Unexpected Name")).
  { apply (Hsdl eq_refl). right.
    split; [ exists oldText; reflexivity | reflexivity ]. }
  split; [ reflexivity | split; [ reflexivity | split; [ reflexivity | ] ] ].
  split; [ exact Hbuild | ].
  exact (Hrun (settings builtinRule) suiteRules [] None _
           eq_refl eq_refl eq_refl eq_refl Hbuild).
Defined.

(** The pointer [master]: both loads succeed, then the type error. *)
Lemma pointer_without_colon_ends_in_type_error_witness :
  Spec.hasColon (schemaPointer (settings pathless)) = false /\
  loadUsage (world pathless) (settings pathless) = ([], Val None) /\
  resolveTargets (settings pathless)
  = (fst (resolveTargets (settings pathless) : M Ev _), Val pathlessTargets) /\
  load_path (oldLoad pathlessTargets) = None /\
  load_path (newLoad pathlessTargets) = None /\
  compare (world pathless) (settings pathless) suiteRules =
  (([] ++ fst (resolveTargets (settings pathless) : M Ev _)
       ++ [LoadFileCall (oldLoad pathlessTargets);
           LoadFileCall (newLoad pathlessTargets);
           CoreInfo "Got both sources"])%list,
   Throw "TypeError: Cannot read properties of undefined (reading 'toLowerCase')").
Proof.
  split; [ reflexivity | split; [ reflexivity | split; [ reflexivity | ] ] ].
  exact (@pointer_without_colon_ends_in_type_error _ _ _ _ _ _
           (world pathless) (settings pathless) suiteRules [] None _
           pathlessTargets oldText newText
           eq_refl eq_refl eq_refl eq_refl eq_refl).
Defined.

(** The run of the test suite completes on a surviving [Success]; a run
    whose diff engine throws rejects without an output. *)
Lemma run_ends_by_its_analysis_witness :
  (snd (run accepted) = Val tt /\
   exists tr s action,
     analyse accepted = (tr, Val (s, action)) /\
     snd (overrideConclusion s (conclusion action) : M Ev _) = Val Success)
  /\
  (snd (run engineFailure) = Throw "Cannot read properties of undefined" /\
   snd (analyse engineFailure) = Throw "Cannot read properties of undefined" /\
   outputsOf (fst (run engineFailure)) = []).
Proof.
  split.
  - split; [ reflexivity | ].
    exact (proj1 (proj1 (@run_ends_by_its_analysis _ _ _ _ _ _ accepted))
             eq_refl).
  - destruct (@run_ends_by_its_analysis _ _ _ _ _ _ engineFailure)
      as (_ & _ & Hthrow & Hout).
    assert (H : snd (run engineFailure)
                = Throw "Cannot read properties of undefined")
      by reflexivity.
    split; [ exact H | split ].
    + exact (proj1 (Hthrow _) H).
    + exact (Hout _ H).
Defined.

(** An open pull request without a base: the head moves, the base stays on
    the pointer ref. *)
Lemma merge_mode_without_base_ref_witness :
  useMerge (settings baseless) = true /\
  pullRequest (settings baseless) = Some baselessPR /\
  state baselessPR = "open" /\
  base baselessPR = None /\
  exists t,
    (resolveTargets (settings baseless) : M Ev _) =
    ([CoreInfo "EXPERIMENTAL - Using Pull Request refs/pull/3/merge"], Val t) /\
    oldLoad t =
      {| load_ref := Some "master"; load_path := Some "schema.graphql";
         load_workspace := None |} /\
    newLoad t =
      {| load_ref := Some "refs/pull/3/merge";
         load_path := Some "schema.graphql"; load_workspace := None |}.
Proof.
  split; [ reflexivity | split; [ reflexivity | split; [ reflexivity | ] ] ].
  split; [ reflexivity | ].
  exact (@merge_mode_without_base_ref string string unit string
           (settings baseless) baselessPR eq_refl eq_refl eq_refl
           (or_introl eq_refl)).
Defined.

(** Under a closed pull request the old source of the test suite's pointer
    is named [master:schema.graphql], the pointer itself. *)
Lemma old_source_is_named_by_the_pointer_witness :
  pullRequest (settings closedRequest) = Some closedPR /\
  state closedPR <> "open" /\
  Spec.remainderAfterFirstColon (schemaPointer (settings closedRequest))
  = Some "schema.graphql" /\
  Spec.hasColon "schema.graphql" = false /\
  snd (resolveTargets (settings closedRequest) : M Ev _) = Val plainTargets /\
  snd (buildSchemas accepted plainTargets oldText newText) = Val suiteBuilt /\
  source_name (sources_old (built_sources suiteBuilt))
  = "master:schema.graphql" /\
  source_name (sources_new (built_sources suiteBuilt)) = "schema.graphql".
Proof.
  assert (Hst : state closedPR <> "open") by discriminate.
  split; [ reflexivity | split; [ exact Hst | split; [ reflexivity | ] ] ].
  split; [ reflexivity | split; [ reflexivity | split; [ reflexivity | ] ] ].
  exact (@old_source_is_named_by_the_pointer _ _ _ _ _ _ accepted
           (settings closedRequest) plainTargets oldText newText suiteBuilt
           "schema.graphql"
           (or_intror (or_intror (ex_intro _ closedPR (conj eq_refl Hst))))
           eq_refl eq_refl eq_refl eq_refl).
Defined.

End MoreScenarios.
